(** * NextTalk Dash backend: rooms, messages and reactions

    A shallow embedding of [backend/server.py].  The MongoDB database the
    handlers talk to is a record of three collections, each the list of its
    documents in insertion order.  The handlers are written in a small
    state-and-exception monad over a [World]: the database together with
    the two sources of outside input the handlers consult, the wall clock
    ([datetime.now]) and the id generator ([uuid.uuid4]).

    Timestamps are integers, microseconds since the epoch, as a Python
    [datetime] resolves them.  The store keeps a datetime as a count of
    milliseconds: a stamp is cut to whole milliseconds when a document is
    written, while the object the handler still holds keeps its
    microseconds.  Documents are typed records, so what pydantic would
    refuse in a stored document does not arise.  The database is written
    by this server only: it is empty when the server first comes up. *)

From stdpp Require Import base list strings sorting gmap.
From Stdlib Require Import ZArith Lia.

Local Open Scope string_scope.
Local Open Scope list_scope.

(** What the store keeps of a datetime: the milliseconds. *)
Definition millis (t : Z) : Z := (t / 1000 * 1000)%Z.

(** ** Models (the pydantic classes) *)

Module User.
Record t := mk {
  id : string;
  username : string;
  avatar_url : option string;
  is_online : bool
}.
End User.

Module Room.
Record t := mk {
  id : string;
  name : string;
  description : option string;
  participants : list string;
  created_at : Z;
  last_activity : Z;
  unread_count : Z
}.

(** The room as the store keeps it. *)
Definition stored (r : t) : t :=
  mk (id r) (name r) (description r) (participants r)
     (millis (created_at r)) (millis (last_activity r)) (unread_count r).

(** The patch [{"$set": {"last_activity": at}}], as the store applies
    it. *)
Definition set_last_activity (at_time : Z) (r : t) : t :=
  mk (id r) (name r) (description r) (participants r)
     (created_at r) (millis at_time) (unread_count r).

(** The patch [{"$set": {"unread_count": n}}]. *)
Definition set_unread_count (n : Z) (r : t) : t :=
  mk (id r) (name r) (description r) (participants r)
     (created_at r) (last_activity r) n.
End Room.

Module Reaction.
Record t := mk {
  emoji : string;
  user_id : string;
  username : string
}.
End Reaction.

Module Message.
Record t := mk {
  id : string;
  room_id : string;
  sender_id : string;
  sender_name : string;
  content : string;
  timestamp : Z;
  reactions : list Reaction.t;
  is_system : bool
}.

(** The message as the store keeps it. *)
Definition stored (m : t) : t :=
  mk (id m) (room_id m) (sender_id m) (sender_name m)
     (content m) (millis (timestamp m)) (reactions m) (is_system m).

(** The patch [{"$set": {"reactions": rs}}]. *)
Definition set_reactions (rs : list Reaction.t) (m : t) : t :=
  mk (id m) (room_id m) (sender_id m) (sender_name m)
     (content m) (timestamp m) rs (is_system m).
End Message.

Module MessageCreate.
Record t := mk { room_id : string; content : string }.
End MessageCreate.

Module ReactionCreate.
Record t := mk { message_id : string; emoji : string }.
End ReactionCreate.

(** The body [{"success": True}] of the two acknowledging handlers. *)
Record Ack := { success : bool }.
Definition ack_ok : Ack := {| success := true |}.

(** ** The document store

    What the handlers use of a MongoDB collection, on a list of documents:
    a filter is a decidable predicate, [find_one] and [update_one] act on
    the first document that matches, inserts append. *)

Module Mongo.
Section Collection.
Context {A : Type} (P : A → Prop) `{!∀ d, Decision (P d)}.

Definition find (c : list A) : list A := filter P c.

Definition find_one (c : list A) : option A := head (filter P c).

Definition count_documents (c : list A) : nat := length (filter P c).

(** [update_one(filter, patch)]: the first match is patched, nothing
    happens when there is none. *)
Fixpoint update_one (patch : A → A) (c : list A) : list A :=
  match c with
  | [] => []
  | d :: c' =>
      if decide (P d) then patch d :: c' else d :: update_one patch c'
  end.
End Collection.

Definition insert_one {A} (d : A) (c : list A) : list A := c ++ [d].
Definition insert_many {A} (ds : list A) (c : list A) : list A := c ++ ds.

(** [cursor.limit(n)]: zero means no limit, a negative [n] limits to its
    absolute value. *)
Definition limit {A} (n : Z) (c : list A) : list A :=
  if decide (n = 0)%Z then c else take (Z.to_nat (Z.abs n)) c.
End Mongo.

Record Database := {
  users : list User.t;
  rooms : list Room.t;
  messages : list Message.t
}.

Definition empty_db : Database :=
  {| users := []; rooms := []; messages := [] |}.

(** ** The handler monad *)

Inductive Exn :=
| HTTPException (status_code : Z) (detail : string)
| ValueError (msg : string)
| OverflowError (msg : string).

Inductive Outcome (A : Type) :=
| Return (a : A)
| Raise (e : Exn).
Arguments Return {A} a.
Arguments Raise {A} e.

(** [clock k] is what the [k]-th call of [datetime.now] answers and
    [uuids k] what the [k]-th call of [uuid.uuid4] answers; the two
    counters say how many calls were made so far. *)
Record World := {
  db : Database;
  clock : nat → Z;
  clock_reads : nat;
  uuids : nat → string;
  uuid_draws : nat
}.

Definition M (A : Type) : Type := World → Outcome A * World.

Global Instance M_ret : MRet M := λ A a w, (Return a, w).

Global Instance M_bind : MBind M := λ A B k m w,
  match m w with
  | (Return a, w') => k a w'
  | (Raise e, w') => (Raise e, w')
  end.

Definition raise {A} (e : Exn) : M A := λ w, (Raise e, w).

Definition get_db : M Database := λ w, (Return (db w), w).

Definition with_db (d : Database) (w : World) : World :=
  {| db := d; clock := clock w; clock_reads := clock_reads w;
     uuids := uuids w; uuid_draws := uuid_draws w |}.

Definition put_db (d : Database) : M unit := λ w, (Return tt, with_db d w).

(** [datetime.now(timezone.utc)] *)
Definition now : M Z := λ w,
  (Return (clock w (clock_reads w)),
   {| db := db w; clock := clock w; clock_reads := S (clock_reads w);
      uuids := uuids w; uuid_draws := uuid_draws w |}).

(** [str(uuid.uuid4())] *)
Definition uuid4 : M string := λ w,
  (Return (uuids w (uuid_draws w)),
   {| db := db w; clock := clock w; clock_reads := clock_reads w;
      uuids := uuids w; uuid_draws := S (uuid_draws w) |}).

(** [await cursor.to_list(length)]: a negative length is refused, otherwise
    at most [length] documents are handed over. *)
Definition to_list {A} (length : Z) (cursor : list A) : M (list A) :=
  if decide (length < 0)%Z
  then raise (ValueError "length must be non-negative")
  else mret (take (Z.to_nat length) cursor).

(** [await cursor.limit(n).to_list(length)]: the length is checked first;
    reading the cursor then sends the query, in which the limit travels as
    a 64-bit integer, and the driver refuses to encode a limit that does
    not fit; at most [length] of the limited documents are handed over. *)
Definition limited_to_list {A} (n length : Z) (cursor : list A)
    : M (list A) :=
  if decide (length < 0)%Z
  then raise (ValueError "length must be non-negative")
  else if decide (- 2 ^ 63 ≤ n < 2 ^ 63)%Z
  then mret (take (Z.to_nat length) (Mongo.limit n cursor))
  else raise (OverflowError "MongoDB can only handle up to 8-byte ints").

(** Writes to one collection of [db]; documents go in as the store keeps
    them. *)
Definition db_users_insert_many (us : list User.t) : M unit :=
  d ← get_db;
  put_db {| users := Mongo.insert_many us (users d);
            rooms := rooms d; messages := messages d |}.

Definition db_rooms_insert_many (rs : list Room.t) : M unit :=
  d ← get_db;
  put_db {| users := users d;
            rooms := Mongo.insert_many (Room.stored <$> rs) (rooms d);
            messages := messages d |}.

Definition db_rooms_update_one (P : Room.t → Prop) `{!∀ r, Decision (P r)}
    (patch : Room.t → Room.t) : M unit :=
  d ← get_db;
  put_db {| users := users d;
            rooms := Mongo.update_one P patch (rooms d);
            messages := messages d |}.

Definition db_messages_insert_one (m : Message.t) : M unit :=
  d ← get_db;
  put_db {| users := users d; rooms := rooms d;
            messages := Mongo.insert_one (Message.stored m) (messages d) |}.

Definition db_messages_insert_many (ms : list Message.t) : M unit :=
  d ← get_db;
  put_db {| users := users d; rooms := rooms d;
            messages :=
              Mongo.insert_many (Message.stored <$> ms) (messages d) |}.

Definition db_messages_update_one (P : Message.t → Prop)
    `{!∀ m, Decision (P m)} (patch : Message.t → Message.t) : M unit :=
  d ← get_db;
  put_db {| users := users d; rooms := rooms d;
            messages := Mongo.update_one P patch (messages d) |}.

(** The filters [{"id": i}] and [{"room_id": i}]. *)
Definition room_has_id (i : string) (r : Room.t) : Prop := Room.id r = i.
Definition message_has_id (i : string) (m : Message.t) : Prop :=
  Message.id m = i.
Definition message_in_room (i : string) (m : Message.t) : Prop :=
  Message.room_id m = i.

Global Instance room_has_id_dec i r : Decision (room_has_id i r).
Proof. unfold room_has_id. apply _. Defined.
Global Instance message_has_id_dec i m : Decision (message_has_id i m).
Proof. unfold message_has_id. apply _. Defined.
Global Instance message_in_room_dec i m : Decision (message_in_room i m).
Proof. unfold message_in_room. apply _. Defined.

(** [.sort("timestamp", -1)]: newest first.  The store promises nothing
    on the order among equal timestamps, and nothing below relies on what
    the sort used here does with them. *)
Definition newer_first (a b : Message.t) : Prop :=
  (Message.timestamp b ≤ Message.timestamp a)%Z.

Global Instance newer_first_dec a b : Decision (newer_first a b).
Proof. unfold newer_first. apply _. Defined.

Definition sort_timestamp_desc (c : list Message.t) : list Message.t :=
  merge_sort newer_first c.

(** ** Mock data initialization *)

Definition mock_users : list User.t :=
  [ User.mk "user1" "Alice Johnson" None true;
    User.mk "user2" "Bob Smith" None true;
    User.mk "user3" "Carol Davis" None false;
    User.mk "current_user" "You" None true ].

Definition init_mock_data : M unit :=
  d ← get_db;
  let room_count := Mongo.count_documents (λ _, True) (rooms d) in
  if decide (0 < room_count) then mret tt
  else
    db_users_insert_many mock_users;;
    c1 ← now; a1 ← now;
    c2 ← now; a2 ← now;
    c3 ← now; a3 ← now;
    db_rooms_insert_many
      [ Room.mk "room1" "General Discussion" (Some "Main team chat")
          ["user1"; "user2"; "user3"; "current_user"] c1 a1 3;
        Room.mk "room2" "Project Alpha" (Some "Alpha project coordination")
          ["user1"; "current_user"] c2 a2 1;
        Room.mk "room3" "Random" (Some "Casual conversations")
          ["user2"; "user3"; "current_user"] c3 a3 0 ];;
    t1 ← now; t2 ← now; t3 ← now; t4 ← now;
    db_messages_insert_many
      [ Message.mk "msg1" "room1" "user1" "Alice Johnson"
          "Hey everyone! How's the project coming along?" t1
          [Reaction.mk "👍" "user2" "Bob Smith"] false;
        Message.mk "msg2" "room1" "user2" "Bob Smith"
          "Making good progress! Just finished the backend API." t2
          [Reaction.mk "🚀" "user1" "Alice Johnson"] false;
        Message.mk "msg3" "room1" "user3" "Carol Davis"
          "Awesome work team! Frontend is looking great too." t3
          [] false;
        Message.mk "msg4" "room2" "user1" "Alice Johnson"
          "Can we schedule a review meeting for tomorrow?" t4
          [] false ].

(** ** API routes *)

(** [GET /rooms] *)
Definition get_rooms : M (list Room.t) :=
  d ← get_db;
  rooms ← to_list 100 (Mongo.find (λ _, True) (rooms d));
  mret rooms.

(** [GET /rooms/{room_id}/messages] *)
Definition get_messages (room_id : string) (limit : Z) : M (list Message.t) :=
  d ← get_db;
  messages ← limited_to_list limit limit
    (sort_timestamp_desc
       (Mongo.find (message_in_room room_id) (messages d)));
  mret (reverse messages).

(** The fixed actor every write is attributed to. *)
Definition current_user : string := "current_user".

(** [POST /messages] *)
Definition send_message (message_data : MessageCreate.t) : M Message.t :=
  new_id ← uuid4;
  stamp ← now;
  let message_obj :=
    Message.mk new_id (MessageCreate.room_id message_data)
      current_user "You" (MessageCreate.content message_data)
      stamp [] false in
  db_messages_insert_one message_obj;;
  activity ← now;
  db_rooms_update_one (room_has_id (MessageCreate.room_id message_data))
    (Room.set_last_activity activity);;
  mret message_obj.

Definition not_by (u : string) (r : Reaction.t) : Prop :=
  Reaction.user_id r ≠ u.

Global Instance not_by_dec u r : Decision (not_by u r).
Proof. unfold not_by. apply _. Defined.

(** [POST /reactions] *)
Definition add_reaction (reaction_data : ReactionCreate.t) : M Ack :=
  d ← get_db;
  match
    Mongo.find_one (message_has_id (ReactionCreate.message_id reaction_data))
      (messages d)
  with
  | None => raise (HTTPException 404 "Message not found")
  | Some message =>
      let existing_reactions :=
        filter (not_by current_user) (Message.reactions message) in
      let new_reaction :=
        Reaction.mk (ReactionCreate.emoji reaction_data) current_user "You" in
      let existing_reactions := existing_reactions ++ [new_reaction] in
      db_messages_update_one
        (message_has_id (ReactionCreate.message_id reaction_data))
        (Message.set_reactions existing_reactions);;
      mret ack_ok
  end.

(** [POST /rooms/{room_id}/mark-read] *)
Definition mark_room_as_read (room_id : string) : M Ack :=
  db_rooms_update_one (room_has_id room_id) (Room.set_unread_count 0);;
  mret ack_ok.

(** [startup]: the mock data is installed when the server comes up. *)
Definition startup_event : M unit := init_mock_data.

(** ** The server as a transition system *)

Inductive Request :=
| GetRooms
| GetMessages (room_id : string) (limit : Z)
| SendMessage (message_data : MessageCreate.t)
| AddReaction (reaction_data : ReactionCreate.t)
| MarkRoomAsRead (room_id : string).

Inductive Response :=
| Rooms (rs : list Room.t)
| Messages (ms : list Message.t)
| Created (m : Message.t)
| Acked (a : Ack).

Definition serve (req : Request) : M Response :=
  match req with
  | GetRooms => rs ← get_rooms; mret (Rooms rs)
  | GetMessages room_id limit =>
      ms ← get_messages room_id limit; mret (Messages ms)
  | SendMessage message_data =>
      m ← send_message message_data; mret (Created m)
  | AddReaction reaction_data =>
      a ← add_reaction reaction_data; mret (Acked a)
  | MarkRoomAsRead room_id => a ← mark_room_as_read room_id; mret (Acked a)
  end.

(** The worlds the server can be in: it comes up on an empty database and
    then answers requests one after the other. *)
Inductive reachable : World → Prop :=
| reachable_startup w0 :
    db w0 = empty_db → reachable (startup_event w0).2
| reachable_serve w req :
    reachable w → reachable (serve req w).2.

(** Running calls one after the other, keeping every outcome. *)
Fixpoint run_all {A} (calls : list (M A)) (w : World)
    : list (Outcome A) * World :=
  match calls with
  | [] => ([], w)
  | call :: calls' =>
      let '(o, w1) := call w in
      let '(os, w2) := run_all calls' w1 in
      (o :: os, w2)
  end.

(** A world to run the handlers in: the clock is read once per
    millisecond, half a millisecond after the full one, and ids are
    numbered. *)
Definition demo_uuid (k : nat) : string :=
  String.append "uuid-" (String (Ascii.ascii_of_nat (48 + k)) EmptyString).

Definition blank_world : World :=
  {| db := empty_db; clock := λ k, (1000 * (1000 + Z.of_nat k) + 500)%Z;
     clock_reads := 0; uuids := demo_uuid; uuid_draws := 0 |}.

Definition seeded_world : World := (startup_event blank_world).2.



(** ** Vocabulary of the properties *)

(** The reactions a message carries once [current_user] reacted: what
    [add_reaction] computes as [existing_reactions]. *)
Definition reacted (emoji : string) (message : Message.t) : list Reaction.t :=
  filter (not_by current_user) (Message.reactions message)
  ++ [Reaction.mk emoji current_user "You"].

Definition by_user (u : string) (r : Reaction.t) : Prop :=
  Reaction.user_id r = u.

Global Instance by_user_dec u r : Decision (by_user u r).
Proof. unfold by_user. apply _. Defined.

(** At most one reaction per user on every stored message. *)
Definition reactions_unique (d : Database) : Prop :=
  Forall (λ m, NoDup (Reaction.user_id <$> Message.reactions m)) (messages d).

(** Chronological order. *)
Definition older_first (a b : Message.t) : Prop :=
  (Message.timestamp a ≤ Message.timestamp b)%Z.

(** A database of 101 rooms, numbered from 0. *)
Definition numbered_room (k : nat) : Room.t :=
  Room.mk (String.append "room-" (String (Ascii.ascii_of_nat k) EmptyString))
    "Room" None [] 0 0 0.

Definition crowded_world : World :=
  with_db {| users := []; rooms := numbered_room <$> seq 0 101;
             messages := [] |} blank_world.

Global Instance Room_eq_dec : EqDecision Room.t.
Proof. solve_decision. Defined.

(** ** The summary route *)

Record SummaryResponse := {
  summary_points : list string;
  message_count : Z;
  time_range : string
}.

(** The dictionary [mock_summaries] of the handler. *)
Definition mock_summaries : gmap string (list string) :=
  <["room1" :=
      [ "Team discussed project progress with positive updates";
        "Backend API development completed successfully";
        "Frontend development showing good progress";
        "Overall team morale is high and collaborative";
        "No major blockers or issues identified" ]]>
  (<["room2" :=
      [ "Project Alpha coordination meeting scheduled";
        "Review meeting requested for tomorrow";
        "Timeline appears to be on track";
        "Team alignment on project deliverables";
        "Next steps clearly defined" ]]>
  (<["room3" :=
      [ "Casual team conversations";
        "Light-hearted discussions about work-life balance";
        "Team bonding and social interactions";
        "Informal knowledge sharing";
        "Positive team culture evident" ]]> ∅)).

(** The second argument of [mock_summaries.get]. *)
Definition generic_summary : list string :=
  [ "Recent conversations in this room";
    "Various topics discussed by team members";
    "Active participation from multiple users";
    "Collaborative communication observed";
    "Regular team interactions maintained" ].

(** [GET /summary/{room_id}] *)
Definition get_chat_summary (room_id : string) : M SummaryResponse :=
  let summary_points :=
    default generic_summary (mock_summaries !! room_id) in
  mret {| summary_points := summary_points; message_count := 50;
          time_range := "Last 24 hours" |}.

(** ** Vocabulary of the further properties *)

(** What of a room no handler rewrites. *)
Definition room_identity (r : Room.t)
    : string * string * option string * list string * Z :=
  (Room.id r, Room.name r, Room.description r, Room.participants r,
   Room.created_at r).

(** A message without the reactions of [current_user]. *)
Definition others_only (m : Message.t) : Message.t :=
  Message.set_reactions
    (filter (not_by current_user) (Message.reactions m)) m.

(** The ids of the four mock messages. *)
Definition mock_message_ids : list string := ["msg1"; "msg2"; "msg3"; "msg4"].

(** A clock that never steps back. *)
Definition clock_monotone (w : World) : Prop :=
  ∀ i j : nat, (i ≤ j)%nat → (clock w i ≤ clock w j)%Z.

(** No room was active before it was created. *)
Definition activity_after_creation (d : Database) : Prop :=
  Forall (λ r, (Room.created_at r ≤ Room.last_activity r)%Z) (rooms d).


(** ** The API tester ([backend_test.py])

    [run_test] sends one request and compares the status of the reply with
    the expected one.  What it prints is left out; what comes back from
    the network is an input: no reply at all when [requests] raises, or a
    reply whose body may or may not parse as JSON. *)

#[warnings="-register-all"]
Inductive Json :=
| JNull
| JBool (b : bool)
| JNumber (n : Z)
| JString (s : string)
| JList (items : list Json)
| JDict (fields : list (string * Json)).

Record HttpResponse := {
  status_code : Z;
  text : string;
  (** [response.json()]: [None] when the call raises. *)
  json : option Json
}.

Module Tester.
Record t := mk {
  tests_run : nat;
  tests_passed : nat;
  room_ids : list string;
  message_ids : list string
}.

Definition count_run (self : t) : t :=
  mk (S (tests_run self)) (tests_passed self) (room_ids self)
     (message_ids self).

Definition count_passed (self : t) : t :=
  mk (tests_run self) (S (tests_passed self)) (room_ids self)
     (message_ids self).

(** [run_test(name, method, endpoint, expected_status, data, params)]: the
    flag and the body handed back, and the tester afterwards.  A method
    that is none of the four leaves [response] unbound, which the handler
    of the outer [try] turns into [(False, {})], like a failing request or
    a body that does not parse. *)
Definition run_test (method : string) (expected_status : Z)
    (reply : option HttpResponse) (self : t) : (bool * Json) * t :=
  let self := count_run self in
  if decide (method ∈ ["GET"; "POST"; "PUT"; "DELETE"]) then
    match reply with
    | None => ((false, JDict []), self)
    | Some response =>
        let success := bool_decide (status_code response = expected_status) in
        let self := if success then count_passed self else self in
        if decide (text response = "") then ((success, JDict []), self)
        else
          match json response with
          | Some body => ((success, body), self)
          | None => ((false, JDict []), self)
          end
    end
  else ((false, JDict []), self).
End Tester.

(** A tester that has run nothing, a reply listing no room, and a reply
    that is an HTML page. *)
Definition fresh_tester : Tester.t := Tester.mk 0 0 [] [].

Definition rooms_reply : HttpResponse :=
  {| status_code := 200; text := "[]"; json := Some (JList []) |}.

Definition html_reply : HttpResponse :=
  {| status_code := 200; text := "<html></html>"; json := None |}.

(** ** Facts about the document store *)

Section CollectionFacts.
Context {A : Type} (P : A → Prop) `{!∀ d, Decision (P d)}.

Lemma find_one_None (c : list A) :
  Mongo.find_one P c = None ↔ Forall (λ d, ¬ P d) c.
Proof.
  unfold Mongo.find_one. induction c as [|d c IH]; simpl.
  - split; [constructor | done].
  - rewrite filter_cons. destruct (decide (P d)) as [Hd|Hd]; simpl.
    + split; [done | intros Hall; inversion Hall; subst; contradiction].
    + rewrite IH. split; [by constructor | by inversion 1].
Qed.

(** A hit is the first matching document: everything before it fails the
    filter. *)
Lemma find_one_Some (c : list A) (d : A) :
  Mongo.find_one P c = Some d ↔
  ∃ before after, c = before ++ d :: after ∧ Forall (λ x, ¬ P x) before ∧ P d.
Proof.
  unfold Mongo.find_one. induction c as [|x c IH]; simpl.
  - split; [done | intros ([|??] & ? & ? & _); discriminate].
  - rewrite filter_cons. destruct (decide (P x)) as [Hx|Hx]; simpl.
    + split.
      * intros [= ->]. exists [], c. by repeat split.
      * intros ([|y before] & after & Heq & Hbefore & Hd);
          simpl in Heq; injection Heq as -> ->; [done|].
        inversion Hbefore; subst; contradiction.
    + rewrite IH. split.
      * intros (before & after & -> & Hbefore & Hd).
        exists (x :: before), after. repeat split; [by constructor | done].
      * intros ([|y before] & after & Heq & Hbefore & Hd);
          simpl in Heq; injection Heq as -> ->; [contradiction|].
        exists before, after. by inversion Hbefore; subst.
Qed.

Lemma update_one_miss (patch : A → A) (c : list A) :
  Mongo.find_one P c = None → Mongo.update_one P patch c = c.
Proof.
  rewrite find_one_None. induction 1 as [|d c Hd _ IH]; simpl; [done|].
  destruct (decide (P d)); [contradiction | by rewrite IH].
Qed.

Lemma update_one_at (patch : A → A) (before after : list A) (d : A) :
  Forall (λ x, ¬ P x) before → P d →
  Mongo.update_one P patch (before ++ d :: after) = before ++ patch d :: after.
Proof.
  intros Hbefore Hd. induction Hbefore as [|x before Hx _ IH]; simpl.
  - by destruct (decide (P d)).
  - destruct (decide (P x)); [contradiction | by rewrite IH].
Qed.

Lemma find_one_update_one (patch : A → A) (c : list A) :
  (∀ d, P d → P (patch d)) →
  Mongo.find_one P (Mongo.update_one P patch c) = patch <$> Mongo.find_one P c.
Proof.
  intros Hkeep. destruct (Mongo.find_one P c) as [d|] eqn:Hfind; simpl.
  - apply find_one_Some in Hfind as (before & after & -> & Hbefore & Hd).
    rewrite update_one_at by done. apply find_one_Some.
    exists before, after. auto.
  - by rewrite update_one_miss.
Qed.
End CollectionFacts.

(** ** The handlers, evaluated *)

Lemma add_reaction_miss (reaction_data : ReactionCreate.t) (w : World) :
  Mongo.find_one (message_has_id (ReactionCreate.message_id reaction_data))
    (messages (db w)) = None →
  add_reaction reaction_data w
  = (Raise (HTTPException 404 "Message not found"), w).
Proof.
  intros Hfind. unfold add_reaction, mbind, M_bind, get_db. by rewrite Hfind.
Qed.

Lemma add_reaction_hit (reaction_data : ReactionCreate.t) (w : World)
    (message : Message.t) :
  Mongo.find_one (message_has_id (ReactionCreate.message_id reaction_data))
    (messages (db w)) = Some message →
  add_reaction reaction_data w
  = (Return ack_ok,
     with_db
       {| users := users (db w); rooms := rooms (db w);
          messages :=
            Mongo.update_one
              (message_has_id (ReactionCreate.message_id reaction_data))
              (Message.set_reactions
                 (reacted (ReactionCreate.emoji reaction_data) message))
              (messages (db w)) |} w).
Proof.
  intros Hfind. unfold add_reaction, mbind, M_bind, get_db. by rewrite Hfind.
Qed.

Lemma add_reaction_then_find (reaction_data : ReactionCreate.t) (w : World)
    (message : Message.t) :
  Mongo.find_one (message_has_id (ReactionCreate.message_id reaction_data))
    (messages (db w)) = Some message →
  Mongo.find_one (message_has_id (ReactionCreate.message_id reaction_data))
    (messages (db (add_reaction reaction_data w).2))
  = Some (Message.set_reactions
            (reacted (ReactionCreate.emoji reaction_data) message) message).
Proof.
  intros Hfind. rewrite (add_reaction_hit _ _ _ Hfind). simpl.
  rewrite find_one_update_one by done. by rewrite Hfind.
Qed.

Lemma filter_not_by_reacted (emoji : string) (message : Message.t) :
  filter (not_by current_user) (reacted emoji message)
  = filter (not_by current_user) (Message.reactions message).
Proof.
  unfold reacted. rewrite filter_app, list_filter_filter.
  rewrite filter_cons_False, filter_nil, app_nil_r.
  - apply list_filter_iff. tauto.
  - unfold not_by. simpl. tauto.
Qed.

Lemma filter_by_user_not_by (u : string) (rs : list Reaction.t) :
  filter (by_user u) (filter (not_by u) rs) = [].
Proof.
  induction rs as [|r rs IH]; [done|].
  rewrite (filter_cons (not_by u)).
  destruct (decide (not_by u r)) as [Hr|Hr]; [|done].
  by rewrite filter_cons_False.
Qed.

Lemma filter_by_user_reacted (emoji : string) (message : Message.t) :
  filter (by_user current_user) (reacted emoji message)
  = [Reaction.mk emoji current_user "You"].
Proof.
  unfold reacted. rewrite filter_app, filter_by_user_not_by.
  by rewrite filter_cons_True, filter_nil by reflexivity.
Qed.

(** ** Reactions *)

(** C7: reacting to a message id that no stored message carries answers
    404 "Message not found" and leaves the world, hence every room and every
    message, as it was. *)
Theorem add_reaction_unknown_message (reaction_data : ReactionCreate.t)
    (w : World) :
  Forall (λ m, Message.id m ≠ ReactionCreate.message_id reaction_data)
    (messages (db w)) →
  add_reaction reaction_data w
  = (Raise (HTTPException 404 "Message not found"), w).
Proof.
  intros Habsent. apply add_reaction_miss, find_one_None. exact Habsent.
Qed.

Lemma add_reaction_unknown_message_witness :
  add_reaction (ReactionCreate.mk "msg9" "🔥") seeded_world
  = (Raise (HTTPException 404 "Message not found"), seeded_world).
Proof.
  apply (add_reaction_unknown_message (ReactionCreate.mk "msg9" "🔥")
           seeded_world).
  vm_compute. repeat constructor; discriminate.
Defined.

(** C10: a successful reaction rewrites one stored message, the first one
    with the given id, and of it only the reactions: the reactions of other
    users stay, in their order; the other fields of the message, the other
    messages, the rooms and the users are untouched. *)
Theorem add_reaction_frame (reaction_data : ReactionCreate.t) (w : World)
    (message : Message.t) :
  Mongo.find_one (message_has_id (ReactionCreate.message_id reaction_data))
    (messages (db w)) = Some message →
  ∃ before after message',
    (add_reaction reaction_data w).1 = Return ack_ok ∧
    messages (db w) = before ++ message :: after ∧
    Forall (λ m, Message.id m ≠ ReactionCreate.message_id reaction_data)
      before ∧
    messages (db (add_reaction reaction_data w).2)
    = before ++ message' :: after ∧
    rooms (db (add_reaction reaction_data w).2) = rooms (db w) ∧
    users (db (add_reaction reaction_data w).2) = users (db w) ∧
    filter (not_by current_user) (Message.reactions message')
    = filter (not_by current_user) (Message.reactions message) ∧
    Message.id message' = Message.id message ∧
    Message.room_id message' = Message.room_id message ∧
    Message.sender_id message' = Message.sender_id message ∧
    Message.sender_name message' = Message.sender_name message ∧
    Message.content message' = Message.content message ∧
    Message.timestamp message' = Message.timestamp message ∧
    Message.is_system message' = Message.is_system message.
Proof.
  intros Hfind. rewrite (add_reaction_hit _ _ _ Hfind). simpl.
  apply find_one_Some in Hfind as (before & after & Heq & Hbefore & Hid).
  exists before, after,
    (Message.set_reactions
       (reacted (ReactionCreate.emoji reaction_data) message) message).
  rewrite Heq, update_one_at by done. simpl.
  rewrite filter_not_by_reacted. by repeat split.
Qed.

Lemma add_reaction_frame_witness :
  let reaction_data := ReactionCreate.mk "msg2" "🔥" in
  let message :=
    Message.mk "msg2" "room1" "user2" "Bob Smith"
      "Making good progress! Just finished the backend API." 1007000
      [Reaction.mk "🚀" "user1" "Alice Johnson"] false in
  ∃ before after message',
    (add_reaction reaction_data seeded_world).1 = Return ack_ok ∧
    messages (db seeded_world) = before ++ message :: after ∧
    Forall (λ m, Message.id m ≠ ReactionCreate.message_id reaction_data)
      before ∧
    messages (db (add_reaction reaction_data seeded_world).2)
    = before ++ message' :: after ∧
    rooms (db (add_reaction reaction_data seeded_world).2)
    = rooms (db seeded_world) ∧
    users (db (add_reaction reaction_data seeded_world).2)
    = users (db seeded_world) ∧
    filter (not_by current_user) (Message.reactions message')
    = filter (not_by current_user) (Message.reactions message) ∧
    Message.id message' = Message.id message ∧
    Message.room_id message' = Message.room_id message ∧
    Message.sender_id message' = Message.sender_id message ∧
    Message.sender_name message' = Message.sender_name message ∧
    Message.content message' = Message.content message ∧
    Message.timestamp message' = Message.timestamp message ∧
    Message.is_system message' = Message.is_system message.
Proof.
  intros reaction_data message.
  apply (add_reaction_frame reaction_data seeded_world message).
  reflexivity.
Defined.

Lemma run_all_cons {A} (call : M A) (calls : list (M A)) (w : World) :
  run_all (call :: calls) w
  = ((call w).1 :: (run_all calls (call w).2).1,
     (run_all calls (call w).2).2).
Proof.
  simpl. destruct (call w) as [o w1]. simpl.
  by destruct (run_all calls w1).
Qed.

(** C1: after [current_user] reacted to a stored message any number of
    times in a row, every call having been acknowledged, the message has
    exactly one reaction of [current_user]; it shows the emoji of the last
    call and is the last element of the reactions. *)
Theorem react_last_writer_wins (message_id : string) (earlier : list string)
    (last_emoji : string) (w : World) (message : Message.t) :
  Mongo.find_one (message_has_id message_id) (messages (db w))
  = Some message →
  ∃ message',
    Forall (λ o, o = Return ack_ok)
      (run_all ((λ e, add_reaction (ReactionCreate.mk message_id e))
                <$> earlier ++ [last_emoji]) w).1 ∧
    Mongo.find_one (message_has_id message_id)
      (messages (db (run_all
         ((λ e, add_reaction (ReactionCreate.mk message_id e))
          <$> earlier ++ [last_emoji]) w).2))
    = Some message' ∧
    filter (by_user current_user) (Message.reactions message')
    = [Reaction.mk last_emoji current_user "You"] ∧
    last (Message.reactions message')
    = Some (Reaction.mk last_emoji current_user "You").
Proof.
  revert w message.
  induction earlier as [|e earlier IH]; intros w message Hfind.
  - pose proof (add_reaction_then_find
                  (ReactionCreate.mk message_id last_emoji) w message Hfind)
      as Hthen.
    pose proof (add_reaction_hit
                  (ReactionCreate.mk message_id last_emoji) w message Hfind)
      as Hhit.
    simpl app. rewrite fmap_cons, fmap_nil, run_all_cons. simpl run_all.
    simpl in *. rewrite Hthen.
    eexists. split; [|split; [reflexivity|]].
    + rewrite Hhit. by repeat constructor.
    + simpl. split; [apply filter_by_user_reacted | apply last_snoc].
  - pose proof (add_reaction_then_find
                  (ReactionCreate.mk message_id e) w message Hfind) as Hthen.
    pose proof (add_reaction_hit
                  (ReactionCreate.mk message_id e) w message Hfind) as Hhit.
    simpl in Hthen.
    destruct (IH _ _ Hthen) as (message' & Hacks & Hfind' & Hone & Hlast).
    exists message'.
    rewrite <- app_comm_cons, fmap_cons, run_all_cons. simpl fst. simpl snd.
    split; [|done].
    constructor; [by rewrite Hhit | done].
Qed.

Lemma react_last_writer_wins_witness :
  ∃ message',
    Forall (λ o, o = Return ack_ok)
      (run_all ((λ e, add_reaction (ReactionCreate.mk "msg1" e))
                <$> ["🔥"; "👍"] ++ ["🎉"]) seeded_world).1 ∧
    Mongo.find_one (message_has_id "msg1")
      (messages (db (run_all
         ((λ e, add_reaction (ReactionCreate.mk "msg1" e))
          <$> ["🔥"; "👍"] ++ ["🎉"]) seeded_world).2))
    = Some message' ∧
    filter (by_user current_user) (Message.reactions message')
    = [Reaction.mk "🎉" current_user "You"] ∧
    last (Message.reactions message')
    = Some (Reaction.mk "🎉" current_user "You").
Proof.
  apply (react_last_writer_wins "msg1" ["🔥"; "👍"] "🎉" seeded_world
           (Message.mk "msg1" "room1" "user1" "Alice Johnson"
              "Hey everyone! How's the project coming along?" 1006000
              [Reaction.mk "👍" "user2" "Bob Smith"] false)).
  reflexivity.
Defined.

(** ** Listing messages *)

Global Instance newer_first_trans : Transitive newer_first.
Proof. unfold newer_first. intros a b c. lia. Qed.

Global Instance newer_first_total : Total newer_first.
Proof. unfold newer_first. intros a b. lia. Qed.

Global Instance older_first_trans : Transitive older_first.
Proof. unfold older_first. intros a b c. lia. Qed.

Lemma sort_timestamp_desc_sorted (c : list Message.t) :
  StronglySorted newer_first (sort_timestamp_desc c).
Proof. apply StronglySorted_merge_sort; apply _. Qed.

Lemma sort_timestamp_desc_perm (c : list Message.t) :
  sort_timestamp_desc c ≡ₚ c.
Proof. apply merge_sort_Permutation. Qed.

(** With a positive limit that fits 64 bits the handler answers the first
    [limit] documents of the sorted cursor, turned round. *)
Lemma get_messages_positive (room_id : string) (limit : Z) (w : World) :
  (0 < limit < 2 ^ 63)%Z →
  get_messages room_id limit w
  = (Return
       (reverse
          (take (Z.to_nat limit)
             (sort_timestamp_desc
                (Mongo.find (message_in_room room_id) (messages (db w)))))),
     w).
Proof.
  intros Hpos.
  unfold get_messages, limited_to_list, Mongo.limit, mbind, M_bind, get_db.
  destruct (decide (limit < 0)%Z); [lia|].
  destruct (decide (- 2 ^ 63 ≤ limit < 2 ^ 63)%Z); [|lia].
  destruct (decide (limit = 0)%Z); [lia|].
  simpl. unfold mret, M_ret.
  rewrite take_take. do 4 f_equal. lia.
Qed.

(** From 2^63 on the limit cannot be sent: the handler raises and the
    world is as before. *)
Lemma get_messages_overflow (room_id : string) (limit : Z) (w : World) :
  (2 ^ 63 ≤ limit)%Z →
  get_messages room_id limit w
  = (Raise (OverflowError "MongoDB can only handle up to 8-byte ints"), w).
Proof.
  intros Hbig.
  unfold get_messages, limited_to_list, mbind, M_bind, get_db.
  destruct (decide (limit < 0)%Z); [lia|].
  destruct (decide (- 2 ^ 63 ≤ limit < 2 ^ 63)%Z); [lia|done].
Qed.

(** C2, as the code has it: the limit is sent to the store as a 64-bit
    integer.  For a positive limit below 2^63 the handler answers at most
    [limit] messages of the room, oldest first, and they are the [limit]
    most recent ones: the room's messages split into the answered page and
    a rest none of which is newer than any message of the page, and the
    page is short of [limit] only when the room has no more messages. *)
Theorem get_messages_last_n (room_id : string) (limit : Z) (w : World) :
  (0 < limit < 2 ^ 63)%Z →
  ∃ page rest,
    get_messages room_id limit w = (Return page, w) ∧
    (length page ≤ Z.to_nat limit)%nat ∧
    StronglySorted older_first page ∧
    Mongo.find (message_in_room room_id) (messages (db w)) ≡ₚ rest ++ page ∧
    (∀ old recent, old ∈ rest → recent ∈ page → older_first old recent) ∧
    length page
    = Z.to_nat limit
      `min` length (Mongo.find (message_in_room room_id) (messages (db w))).
Proof.
  intros Hpos.
  rewrite get_messages_positive by done.
  set (stored := Mongo.find (message_in_room room_id) (messages (db w))).
  set (n := Z.to_nat limit).
  set (sorted := sort_timestamp_desc stored).
  assert (Hsorted : StronglySorted newer_first
                      (take n sorted ++ drop n sorted)).
  { rewrite take_drop. apply sort_timestamp_desc_sorted. }
  assert (Hperm : take n sorted ++ drop n sorted ≡ₚ stored).
  { rewrite take_drop. apply sort_timestamp_desc_perm. }
  exists (reverse (take n sorted)), (drop n sorted).
  split; [done|].
  rewrite length_reverse, length_take.
  split; [lia|]. split; [|split; [|split]].
  - apply Sorted_StronglySorted; [apply _|].
    apply (Sorted_reverse newer_first).
    apply StronglySorted_Sorted.
    by apply StronglySorted_app_1_l in Hsorted.
  - rewrite <- Hperm, reverse_Permutation. apply Permutation_app_comm.
  - intros old recent Hold Hrecent. rewrite elem_of_reverse in Hrecent.
    exact (StronglySorted_app_1_elem_of _ _ _ _ _ Hsorted Hrecent Hold).
  - f_equal. apply Permutation_length.
    rewrite <- Hperm, take_drop. done.
Qed.

Lemma get_messages_last_n_witness :
  (0 < 2 < 2 ^ 63)%Z ∧
  ∃ page rest,
    get_messages "room1" 2 seeded_world = (Return page, seeded_world) ∧
    (length page ≤ Z.to_nat 2)%nat ∧
    StronglySorted older_first page ∧
    Mongo.find (message_in_room "room1") (messages (db seeded_world))
    ≡ₚ rest ++ page ∧
    (∀ old recent, old ∈ rest → recent ∈ page → older_first old recent) ∧
    length page
    = Z.to_nat 2
      `min` length
              (Mongo.find (message_in_room "room1")
                 (messages (db seeded_world))).
Proof.
  split; [lia|]. apply (get_messages_last_n "room1" 2 seeded_world). lia.
Defined.

(** C2 fails on the code: 2^63 is a positive limit, and with it the
    handler answers no page at all but raises, whatever the room holds. *)
Lemma get_messages_huge_limit_counterexample :
  (0 < 2 ^ 63)%Z ∧
  get_messages "room1" (2 ^ 63) seeded_world
  = (Raise (OverflowError "MongoDB can only handle up to 8-byte ints"),
     seeded_world) ∧
  ¬ ∃ page, (get_messages "room1" (2 ^ 63) seeded_world).1 = Return page.
Proof.
  assert (Hraise : get_messages "room1" (2 ^ 63) seeded_world
                   = (Raise (OverflowError
                               "MongoDB can only handle up to 8-byte ints"),
                      seeded_world))
    by (apply get_messages_overflow; lia).
  split; [lia|]. split; [exact Hraise|].
  rewrite Hraise. by intros [page Hpage].
Qed.

(** The two most recent of the three messages of room1, oldest first. *)
Example get_messages_room1_last_two :
  Message.id <$>
    match (get_messages "room1" 2 seeded_world).1 with
    | Return page => page
    | Raise _ => []
    end
  = ["msg2"; "msg3"].
Proof. reflexivity. Qed.

(** ** Sending a message *)

Lemma millis_le (t : Z) : (millis t ≤ t)%Z.
Proof. unfold millis. pose proof (Z.mul_div_le t 1000). lia. Qed.

Lemma millis_mono (t1 t2 : Z) : (t1 ≤ t2)%Z → (millis t1 ≤ millis t2)%Z.
Proof.
  intros Hle. unfold millis.
  pose proof (Z.div_le_mono t1 t2 1000). lia.
Qed.

(** What [send_message] does, in full: one id is drawn, the clock is read
    twice, the message goes to the end of the collection with its stamp cut
    to milliseconds, and the first room with the given id, if any, gets the
    milliseconds of the second reading as its last activity.  The answer
    is the message with the stamp as read. *)
Lemma send_message_eval (message_data : MessageCreate.t) (w : World) :
  send_message message_data w
  = (Return
       (Message.mk (uuids w (uuid_draws w))
          (MessageCreate.room_id message_data) current_user "You"
          (MessageCreate.content message_data)
          (clock w (clock_reads w)) [] false),
     {| db :=
          {| users := users (db w);
             rooms :=
               Mongo.update_one
                 (room_has_id (MessageCreate.room_id message_data))
                 (Room.set_last_activity (clock w (S (clock_reads w))))
                 (rooms (db w));
             messages :=
               messages (db w)
               ++ [Message.stored
                     (Message.mk (uuids w (uuid_draws w))
                        (MessageCreate.room_id message_data) current_user
                        "You" (MessageCreate.content message_data)
                        (clock w (clock_reads w)) [] false)] |};
        clock := clock w; clock_reads := S (S (clock_reads w));
        uuids := uuids w; uuid_draws := S (uuid_draws w) |}).
Proof. reflexivity. Qed.

(** C4, as the code has it: content is not validated.  A send with empty
    content is answered with the created message, whose content is empty,
    and that message is appended to the stored messages, as the store
    keeps it. *)
Theorem send_message_accepts_empty_content (room_id : string) (w : World) :
  ∃ m,
    (send_message (MessageCreate.mk room_id "") w).1 = Return m ∧
    Message.content m = "" ∧
    Message.room_id m = room_id ∧
    messages (db (send_message (MessageCreate.mk room_id "") w).2)
    = messages (db w) ++ [Message.stored m].
Proof. rewrite send_message_eval. simpl. eexists. by repeat split. Qed.

(** C4 fails on the code: sending empty content to room1 is no failure,
    and the seeded database gains a fifth message. *)
Lemma send_message_empty_content_counterexample :
  (send_message (MessageCreate.mk "room1" "") seeded_world).1
  = Return (Message.mk "uuid-0" "room1" "current_user" "You" "" 1010500 []
              false) ∧
  (¬ ∃ e, (send_message (MessageCreate.mk "room1" "") seeded_world).1
          = Raise e) ∧
  messages (db (send_message (MessageCreate.mk "room1" "") seeded_world).2)
  = messages (db seeded_world)
    ++ [Message.mk "uuid-0" "room1" "current_user" "You" "" 1010000 []
          false] ∧
  messages (db (send_message (MessageCreate.mk "room1" "") seeded_world).2)
  ≠ messages (db seeded_world).
Proof.
  split; [reflexivity|]. split; [by intros [e He]|].
  split; [reflexivity|].
  intros Heq. apply (f_equal length) in Heq. vm_compute in Heq.
  discriminate.
Qed.

(** C5, as the code has it: the room is not looked up.  A send that names
    a room the store does not have is answered with the created message,
    which is appended to the stored messages, as the store keeps it; no
    room changes. *)
Theorem send_message_unknown_room (message_data : MessageCreate.t)
    (w : World) :
  Forall (λ r, Room.id r ≠ MessageCreate.room_id message_data)
    (rooms (db w)) →
  MessageCreate.content message_data ≠ "" →
  ∃ m,
    (send_message message_data w).1 = Return m ∧
    Message.room_id m = MessageCreate.room_id message_data ∧
    Message.content m = MessageCreate.content message_data ∧
    messages (db (send_message message_data w).2)
    = messages (db w) ++ [Message.stored m] ∧
    rooms (db (send_message message_data w).2) = rooms (db w).
Proof.
  intros Habsent _. rewrite send_message_eval. simpl. eexists.
  repeat split. apply update_one_miss, find_one_None. exact Habsent.
Qed.

Lemma send_message_unknown_room_witness :
  ∃ m,
    (send_message (MessageCreate.mk "room9" "hi") seeded_world).1
    = Return m ∧
    Message.room_id m = "room9" ∧
    Message.content m = "hi" ∧
    messages (db (send_message (MessageCreate.mk "room9" "hi")
                    seeded_world).2)
    = messages (db seeded_world) ++ [Message.stored m] ∧
    rooms (db (send_message (MessageCreate.mk "room9" "hi") seeded_world).2)
    = rooms (db seeded_world).
Proof.
  apply (send_message_unknown_room (MessageCreate.mk "room9" "hi")
           seeded_world).
  - vm_compute. repeat constructor; discriminate.
  - discriminate.
Defined.

(** C5 fails on the code: no room of the seeded database is called room9,
    yet a send to room9 is no failure and the message is stored. *)
Lemma send_message_unknown_room_counterexample :
  Forall (λ r, Room.id r ≠ "room9") (rooms (db seeded_world)) ∧
  (send_message (MessageCreate.mk "room9" "hi") seeded_world).1
  = Return (Message.mk "uuid-0" "room9" "current_user" "You" "hi" 1010500
              [] false) ∧
  (¬ ∃ e, (send_message (MessageCreate.mk "room9" "hi") seeded_world).1
          = Raise e) ∧
  messages (db (send_message (MessageCreate.mk "room9" "hi")
                  seeded_world).2)
  = messages (db seeded_world)
    ++ [Message.mk "uuid-0" "room9" "current_user" "You" "hi" 1010000 []
          false] ∧
  messages (db (send_message (MessageCreate.mk "room9" "hi")
                  seeded_world).2)
  ≠ messages (db seeded_world).
Proof.
  split; [vm_compute; repeat constructor; discriminate|].
  split; [reflexivity|]. split; [by intros [e He]|].
  split; [reflexivity|].
  intros Heq. apply (f_equal length) in Heq. vm_compute in Heq.
  discriminate.
Qed.





(** ** Rooms *)

Lemma find_all {A} (c : list A) : Mongo.find (λ _, True) c = c.
Proof.
  unfold Mongo.find. induction c as [|d c IH]; [done|].
  by rewrite filter_cons_True, IH.
Qed.

Lemma with_db_same (w : World) :
  with_db {| users := users (db w); rooms := rooms (db w);
             messages := messages (db w) |} w = w.
Proof. by destruct w as [[] ? ? ? ?]. Qed.

Lemma mark_room_as_read_eval (room_id : string) (w : World) :
  mark_room_as_read room_id w
  = (Return ack_ok,
     with_db
       {| users := users (db w);
          rooms := Mongo.update_one (room_has_id room_id)
                     (Room.set_unread_count 0) (rooms (db w));
          messages := messages (db w) |} w).
Proof. reflexivity. Qed.

(** C6, as the code has it: the update is issued blindly.  Marking a room
    the store does not have as read is acknowledged with success, and
    nothing changes. *)
Theorem mark_room_as_read_unknown_room (room_id : string) (w : World) :
  Forall (λ r, Room.id r ≠ room_id) (rooms (db w)) →
  mark_room_as_read room_id w = (Return ack_ok, w).
Proof.
  intros Habsent. rewrite mark_room_as_read_eval.
  rewrite update_one_miss by (by apply find_one_None).
  by rewrite with_db_same.
Qed.

Lemma mark_room_as_read_unknown_room_witness :
  mark_room_as_read "room9" seeded_world = (Return ack_ok, seeded_world).
Proof.
  apply (mark_room_as_read_unknown_room "room9" seeded_world).
  vm_compute. repeat constructor; discriminate.
Defined.

(** C6 fails on the code: no room of the seeded database is called room9,
    yet marking room9 as read is acknowledged, not refused. *)
Lemma mark_room_as_read_counterexample :
  Forall (λ r, Room.id r ≠ "room9") (rooms (db seeded_world)) ∧
  (mark_room_as_read "room9" seeded_world).1 = Return {| success := true |} ∧
  ¬ ∃ e, (mark_room_as_read "room9" seeded_world).1 = Raise e.
Proof.
  split; [vm_compute; repeat constructor; discriminate|].
  split; [reflexivity | by intros [e He]].
Qed.

Lemma get_rooms_eval (w : World) :
  get_rooms w = (Return (take 100 (rooms (db w))), w).
Proof. unfold get_rooms, mbind, M_bind, get_db. by rewrite find_all. Qed.

(** C9, as the code has it: the cursor is read with [to_list(100)].  The
    handler answers the first hundred rooms in storage order, which are all
    the rooms when the store has at most a hundred. *)
Theorem get_rooms_first_hundred (w : World) :
  get_rooms w = (Return (take 100 (rooms (db w))), w) ∧
  ((length (rooms (db w)) ≤ 100)%nat →
   get_rooms w = (Return (rooms (db w)), w)).
Proof.
  split; [apply get_rooms_eval|].
  intros Hfew. by rewrite get_rooms_eval, take_ge.
Qed.

Lemma get_rooms_first_hundred_witness :
  get_rooms seeded_world = (Return (rooms (db seeded_world)), seeded_world).
Proof.
  apply (get_rooms_first_hundred seeded_world). vm_compute. lia.
Defined.

(** C9 fails on the code: of 101 stored rooms the last one is not
    answered. *)
Lemma get_rooms_counterexample :
  numbered_room 100 ∈ rooms (db crowded_world) ∧
  get_rooms crowded_world
  = (Return (numbered_room <$> seq 0 100), crowded_world) ∧
  numbered_room 100 ∉ numbered_room <$> seq 0 100.
Proof.
  split; [|split].
  - by apply (bool_decide_unpack _); vm_compute.
  - reflexivity.
  - by apply (bool_decide_unpack _); vm_compute.
Qed.

(** ** One reaction per user *)

Lemma get_messages_world (room_id : string) (limit : Z) (w : World) :
  (get_messages room_id limit w).2 = w.
Proof.
  unfold get_messages, limited_to_list, mbind, M_bind, get_db.
  destruct (decide (limit < 0)%Z); [done|].
  by destruct (decide (- 2 ^ 63 ≤ limit < 2 ^ 63)%Z).
Qed.

Lemma Forall_update_one {A} (P : A → Prop) `{!∀ d, Decision (P d)}
    (Q : A → Prop) (patch : A → A) (c : list A) :
  Forall Q c → (∀ d, Q (patch d)) → Forall Q (Mongo.update_one P patch c).
Proof.
  intros Hc Hpatch. induction Hc as [|d c Hd Hc IH]; simpl; [constructor|].
  destruct (decide (P d)); constructor; auto.
Qed.

Lemma reacted_unique (emoji : string) (message : Message.t) :
  NoDup (Reaction.user_id <$> Message.reactions message) →
  NoDup (Reaction.user_id <$> reacted emoji message).
Proof.
  intros Hunique. unfold reacted. rewrite fmap_app. apply NoDup_app.
  split; [|split].
  - eapply sublist_NoDup; [exact Hunique|].
    apply fmap_sublist, sublist_filter.
  - intros u Hu Hnew. simpl in Hnew. apply list_elem_of_singleton in Hnew.
    apply list_elem_of_fmap in Hu as (r & -> & Hr).
    apply list_elem_of_filter in Hr as [Hr _]. by apply Hr.
  - simpl. apply NoDup_singleton.
Qed.

Lemma add_reaction_preserves_unique (reaction_data : ReactionCreate.t)
    (w : World) :
  reactions_unique (db w) →
  reactions_unique (db (add_reaction reaction_data w).2).
Proof.
  intros Hinv.
  destruct (Mongo.find_one
              (message_has_id (ReactionCreate.message_id reaction_data))
              (messages (db w))) as [message|] eqn:Hfind.
  - rewrite (add_reaction_hit _ _ _ Hfind). unfold reactions_unique. simpl.
    apply Forall_update_one; [exact Hinv|]. intros d. simpl.
    apply reacted_unique.
    apply find_one_Some in Hfind as (before & after & Heq & _).
    unfold reactions_unique in Hinv. rewrite Heq in Hinv.
    apply Forall_app in Hinv as [_ Hinv]. by inversion Hinv.
  - by rewrite (add_reaction_miss _ _ Hfind).
Qed.

Lemma send_message_preserves_unique (message_data : MessageCreate.t)
    (w : World) :
  reactions_unique (db w) →
  reactions_unique (db (send_message message_data w).2).
Proof.
  intros Hinv. rewrite send_message_eval. unfold reactions_unique. simpl.
  apply Forall_app. split; [exact Hinv|].
  repeat constructor.
Qed.

Lemma serve_preserves_unique (req : Request) (w : World) :
  reactions_unique (db w) → reactions_unique (db (serve req w).2).
Proof.
  intros Hinv. destruct req as [|room_id limit|message_data|reaction_data|room_id];
    unfold serve, mbind, M_bind.
  - by rewrite get_rooms_eval.
  - pose proof (get_messages_world room_id limit w) as Hw.
    destruct (get_messages room_id limit w) as [[page|e] w']; simpl in *;
      by subst.
  - pose proof (send_message_preserves_unique message_data w Hinv) as Hsend.
    by destruct (send_message message_data w) as [[m|e] w'].
  - pose proof (add_reaction_preserves_unique reaction_data w Hinv) as Hadd.
    by destruct (add_reaction reaction_data w) as [[a|e] w'].
  - by rewrite mark_room_as_read_eval.
Qed.

Lemma startup_event_unique (w0 : World) :
  db w0 = empty_db → reactions_unique (db (startup_event w0).2).
Proof.
  intros Hempty. destruct w0 as [d c n u k]. simpl in Hempty. subst d.
  unfold reactions_unique. cbv -[millis].
  repeat constructor; by inversion 1.
Qed.

Lemma reachable_unique (w : World) :
  reachable w → reactions_unique (db w).
Proof.
  induction 1 as [w0 Hempty|w req _ IH].
  - by apply startup_event_unique.
  - by apply serve_preserves_unique.
Qed.

(** C3: in every world the server can reach, no stored message has two
    reactions of one user, and whatever request is served next (listing
    rooms or messages, sending, reacting, marking a room as read), this
    still holds afterwards. *)
Theorem reactions_unique_invariant (w : World) (req : Request) :
  reachable w →
  reactions_unique (db w) ∧ reactions_unique (db (serve req w).2).
Proof.
  intros Hreach. split.
  - by apply reachable_unique.
  - by apply serve_preserves_unique, reachable_unique.
Qed.

Lemma reactions_unique_invariant_witness :
  reactions_unique (db seeded_world) ∧
  reactions_unique
    (db (serve (AddReaction (ReactionCreate.mk "msg1" "🎉")) seeded_world).2).
Proof.
  apply (reactions_unique_invariant seeded_world
           (AddReaction (ReactionCreate.mk "msg1" "🎉"))).
  apply (reachable_startup blank_world). reflexivity.
Defined.

(** ** A run

    A message is sent to room1, which holds three seeded messages, and
    [current_user] reacts to it twice: the room then lists four messages
    with the new one last, carrying the second reaction only. *)
Example send_then_react_twice :
  let w1 := (send_message (MessageCreate.mk "room1" "hi") seeded_world).2 in
  let w2 := (add_reaction (ReactionCreate.mk "uuid-0" "🔥") w1).2 in
  let w3 := (add_reaction (ReactionCreate.mk "uuid-0" "🎉") w2).2 in
  (get_messages "room1" 50 w3).1
  = Return
      ((take 3 (messages (db seeded_world)))
       ++ [Message.mk "uuid-0" "room1" "current_user" "You" "hi" 1010000
             [Reaction.mk "🎉" "current_user" "You"] false]).
Proof. vm_compute. reflexivity. Qed.

(** ** Startup *)

Lemma count_all {A} (c : list A) :
  Mongo.count_documents (λ _, True) c = length c.
Proof.
  unfold Mongo.count_documents. induction c as [|d c IH]; [done|].
  rewrite filter_cons_True by done. simpl. by rewrite IH.
Qed.

(** With a room in the store the mock data is left out. *)
Lemma startup_event_skips (w : World) :
  rooms (db w) ≠ [] → startup_event w = (Return tt, w).
Proof.
  intros Hrooms. unfold startup_event, init_mock_data.
  unfold mbind at 1. unfold M_bind at 1. unfold get_db at 1.
  rewrite count_all. destruct (rooms (db w)) as [|r rs]; [done|].
  simpl length. destruct (decide (0 < S (length rs))) as [_|Hn]; [done|].
  lia.
Qed.



Lemma startup_event_rooms (w : World) :
  rooms (db (startup_event w).2) ≠ [].
Proof.
  destruct (rooms (db w)) as [|r rs] eqn:Hrooms.
  - destruct w as [[us rs ms] c n u k]. simpl in Hrooms. subst rs.
    cbv -[millis]. discriminate.
  - rewrite startup_event_skips by (by rewrite Hrooms). simpl.
    by rewrite Hrooms.
Qed.

(** X2: Coming up a second time changes nothing: whatever the first startup
    found, the second one finds rooms and leaves the world as it is. *)
Theorem startup_event_idempotent (w : World) :
  startup_event (startup_event w).2 = (Return tt, (startup_event w).2).
Proof. apply startup_event_skips, startup_event_rooms. Qed.

(** ** Summaries *)

Lemma mock_summaries_five (room_id : string) :
  length (default generic_summary (mock_summaries !! room_id)) = 5.
Proof.
  unfold mock_summaries.
  destruct (decide (room_id = "room1")) as [->|H1];
    [by rewrite lookup_insert_eq|rewrite lookup_insert_ne by done].
  destruct (decide (room_id = "room2")) as [->|H2];
    [by rewrite lookup_insert_eq|rewrite lookup_insert_ne by done].
  destruct (decide (room_id = "room3")) as [->|H3];
    [by rewrite lookup_insert_eq|rewrite lookup_insert_ne by done].
  by rewrite lookup_empty.
Qed.

(** X3: The summary does not look at the store: for every room id, stored or
    not, and whatever messages there are, the handler answers five points,
    a message count of 50 and the range "Last 24 hours", and the world is
    as before. *)
Theorem get_chat_summary_canned (room_id : string) (w : World) :
  ∃ points,
    get_chat_summary room_id w
    = (Return {| summary_points := points; message_count := 50;
                 time_range := "Last 24 hours" |}, w) ∧
    length points = 5.
Proof.
  eexists. split; [reflexivity|]. apply mock_summaries_five.
Qed.

(** X4: A room id that is none of room1, room2 and room3 is no error: the
    generic points are answered. *)
Theorem get_chat_summary_unknown_room (room_id : string) (w : World) :
  room_id ∉ ["room1"; "room2"; "room3"] →
  (get_chat_summary room_id w).1
  = Return {| summary_points := generic_summary; message_count := 50;
              time_range := "Last 24 hours" |}.
Proof.
  intros Hother. unfold get_chat_summary, mock_summaries. simpl.
  rewrite !lookup_insert_ne, lookup_empty; [done|..];
    intros <-; apply Hother; set_solver.
Qed.

Lemma get_chat_summary_unknown_room_witness :
  (get_chat_summary "room9" seeded_world).1
  = Return {| summary_points := generic_summary; message_count := 50;
              time_range := "Last 24 hours" |}.
Proof.
  apply (get_chat_summary_unknown_room "room9" seeded_world).
  by apply (bool_decide_unpack _); vm_compute.
Defined.

(** ** Marking a room as read *)

Lemma update_one_idempotent {A} (P : A → Prop) `{!∀ d, Decision (P d)}
    (patch : A → A) (c : list A) :
  (∀ d, P d → P (patch d)) → (∀ d, patch (patch d) = patch d) →
  Mongo.update_one P patch (Mongo.update_one P patch c)
  = Mongo.update_one P patch c.
Proof.
  intros Hkeep Hidem. induction c as [|d c IH]; [done|]. simpl.
  destruct (decide (P d)) as [Hd|Hd]; simpl.
  - destruct (decide (P (patch d))) as [_|Hn]; [|by destruct Hn; auto].
    by rewrite Hidem.
  - destruct (decide (P d)); [done|]. by rewrite IH.
Qed.

(** X5: Marking the room an id resolves to as read is acknowledged and sets
    that room's unread count to zero.  Nothing else of the room changes,
    and the other rooms, the messages, the users and the counters are as
    before. *)
Theorem mark_room_as_read_resets (room_id : string) (w : World)
    (room : Room.t) :
  Mongo.find_one (room_has_id room_id) (rooms (db w)) = Some room →
  ∃ before after,
    (mark_room_as_read room_id w).1 = Return ack_ok ∧
    rooms (db w) = before ++ room :: after ∧
    rooms (db (mark_room_as_read room_id w).2)
    = before ++ Room.set_unread_count 0 room :: after ∧
    messages (db (mark_room_as_read room_id w).2) = messages (db w) ∧
    users (db (mark_room_as_read room_id w).2) = users (db w) ∧
    clock_reads (mark_room_as_read room_id w).2 = clock_reads w ∧
    uuid_draws (mark_room_as_read room_id w).2 = uuid_draws w.
Proof.
  intros Hfind. rewrite mark_room_as_read_eval. simpl.
  apply find_one_Some in Hfind as (before & after & Heq & Hbefore & Hid).
  exists before, after. rewrite Heq, update_one_at by done.
  by repeat split.
Qed.

Lemma mark_room_as_read_resets_witness :
  ∃ before after,
    (mark_room_as_read "room2" seeded_world).1 = Return ack_ok ∧
    rooms (db seeded_world)
    = before
      ++ Room.mk "room2" "Project Alpha" (Some "Alpha project coordination")
           ["user1"; "current_user"] 1002000 1003000 1
      :: after ∧
    rooms (db (mark_room_as_read "room2" seeded_world).2)
    = before
      ++ Room.set_unread_count 0
           (Room.mk "room2" "Project Alpha"
              (Some "Alpha project coordination") ["user1"; "current_user"]
              1002000 1003000 1)
      :: after ∧
    messages (db (mark_room_as_read "room2" seeded_world).2)
    = messages (db seeded_world) ∧
    users (db (mark_room_as_read "room2" seeded_world).2)
    = users (db seeded_world) ∧
    clock_reads (mark_room_as_read "room2" seeded_world).2
    = clock_reads seeded_world ∧
    uuid_draws (mark_room_as_read "room2" seeded_world).2
    = uuid_draws seeded_world.
Proof.
  apply (mark_room_as_read_resets "room2" seeded_world
           (Room.mk "room2" "Project Alpha"
              (Some "Alpha project coordination") ["user1"; "current_user"]
              1002000 1003000 1)).
  reflexivity.
Defined.

(** X6: Marking a room as read twice leaves the world the first call left,
    with the same acknowledgement; the room need not exist. *)
Theorem mark_room_as_read_idempotent (room_id : string) (w : World) :
  mark_room_as_read room_id (mark_room_as_read room_id w).2
  = ((mark_room_as_read room_id w).1, (mark_room_as_read room_id w).2).
Proof.
  rewrite !mark_room_as_read_eval. simpl. unfold with_db. simpl.
  by rewrite update_one_idempotent.
Qed.

(** ** What a request leaves alone *)

(** The world a request leaves, handler by handler: the two listings
    leave the world they found. *)
Lemma serve_world (req : Request) (w : World) :
  (serve req w).2
  = match req with
    | GetRooms | GetMessages _ _ => w
    | SendMessage message_data => (send_message message_data w).2
    | AddReaction reaction_data => (add_reaction reaction_data w).2
    | MarkRoomAsRead room_id => (mark_room_as_read room_id w).2
    end.
Proof.
  destruct req as [|room_id limit|message_data|reaction_data|room_id];
    unfold serve, mbind, M_bind.
  - by rewrite get_rooms_eval.
  - pose proof (get_messages_world room_id limit w) as Hw.
    by destruct (get_messages room_id limit w) as [[page|e] w'].
  - by destruct (send_message message_data w) as [[m|e] w'].
  - by destruct (add_reaction reaction_data w) as [[a|e] w'].
  - by rewrite mark_room_as_read_eval.
Qed.

Lemma add_reaction_world (reaction_data : ReactionCreate.t) (w : World) :
  (∃ before message after,
     messages (db w) = before ++ message :: after ∧
     (add_reaction reaction_data w).2
     = with_db
         {| users := users (db w); rooms := rooms (db w);
            messages :=
              before
              ++ Message.set_reactions
                   (reacted (ReactionCreate.emoji reaction_data) message)
                   message
              :: after |} w) ∨
  (add_reaction reaction_data w).2 = w.
Proof.
  destruct (Mongo.find_one
              (message_has_id (ReactionCreate.message_id reaction_data))
              (messages (db w))) as [message|] eqn:Hfind.
  - left. rewrite (add_reaction_hit _ _ _ Hfind). simpl.
    apply find_one_Some in Hfind as (before & after & Heq & Hbefore & Hid).
    exists before, message, after. split; [done|].
    by rewrite Heq, update_one_at.
  - right. by rewrite (add_reaction_miss _ _ Hfind).
Qed.

Lemma fmap_update_one {A B} (P : A → Prop) `{!∀ d, Decision (P d)}
    (g : A → B) (patch : A → A) (c : list A) :
  (∀ d, g (patch d) = g d) → g <$> Mongo.update_one P patch c = g <$> c.
Proof.
  intros Hg. induction c as [|d c IH]; [done|].
  change (Mongo.update_one P patch (d :: c))
    with (if decide (P d) then patch d :: c
          else d :: Mongo.update_one P patch c).
  destruct (decide (P d)); rewrite !fmap_cons; [by rewrite Hg|by rewrite IH].
Qed.

Lemma Forall2_update_one {A} (P : A → Prop) `{!∀ d, Decision (P d)}
    (R : A → A → Prop) (patch : A → A) (c : list A) :
  (∀ d, R d d) → (∀ d, P d → R d (patch d)) →
  Forall2 R c (Mongo.update_one P patch c).
Proof.
  intros Hrefl Hpatch. induction c as [|d c IH]; simpl; [constructor|].
  destruct (decide (P d)); constructor; auto.
  apply Forall2_same_length_lookup_2; [done|].
  intros i x y Hx Hy. rewrite Hx in Hy. injection Hy as <-. apply Hrefl.
Qed.

Lemma others_only_reacted (emoji : string) (message : Message.t) :
  others_only (Message.set_reactions (reacted emoji message) message)
  = others_only message.
Proof. unfold others_only. simpl. by rewrite filter_not_by_reacted. Qed.

Lemma serve_rooms_fmap {B} (g : Room.t → B) (req : Request) (w : World) :
  (∀ t r, g (Room.set_last_activity t r) = g r) →
  (∀ n r, g (Room.set_unread_count n r) = g r) →
  g <$> rooms (db (serve req w).2) = g <$> rooms (db w).
Proof.
  intros Hactivity Hunread. rewrite serve_world.
  destruct req as [|room_id limit|message_data|reaction_data|room_id];
    try done.
  - rewrite send_message_eval. simpl. by apply fmap_update_one.
  - by destruct (add_reaction_world reaction_data w)
      as [(before & message & after & _ & ->)| ->].
  - rewrite mark_room_as_read_eval. simpl. by apply fmap_update_one.
Qed.

(** X7: No request creates, removes or reorders rooms, or rewrites a room's
    id, name, description, participants or creation time; none touches the
    users; and a room's unread count is afterwards what it was or zero: no
    request raises it. *)
Theorem serve_keeps_rooms (req : Request) (w : World) :
  room_identity <$> rooms (db (serve req w).2)
  = room_identity <$> rooms (db w) ∧
  users (db (serve req w).2) = users (db w) ∧
  Forall2
    (λ r r', Room.unread_count r' = Room.unread_count r ∨
             Room.unread_count r' = 0%Z)
    (rooms (db w)) (rooms (db (serve req w).2)).
Proof.
  assert (Hsame : ∀ rs : list Room.t,
            Forall2
              (λ r r', Room.unread_count r' = Room.unread_count r ∨
                       Room.unread_count r' = 0%Z) rs rs).
  { intros rs. apply Forall2_same_length_lookup_2; [done|].
    intros i x y Hx Hy. rewrite Hx in Hy. injection Hy as <-. by left. }
  split; [by apply serve_rooms_fmap|].
  rewrite serve_world.
  destruct req as [|room_id limit|message_data|reaction_data|room_id];
    try by repeat split.
  - rewrite send_message_eval. simpl. split; [done|].
    apply Forall2_update_one; intros; by left.
  - destruct (add_reaction_world reaction_data w)
      as [(before & message & after & _ & ->)| ->]; by repeat split.
  - rewrite mark_room_as_read_eval. simpl. split; [done|].
    apply Forall2_update_one; intros; [by left | by right].
Qed.

(** X8: The message log only grows at its end, and of a stored message only
    the reactions of [current_user] ever change: with those reactions left
    out, the messages before a request are a prefix of the messages after
    it.  So no request deletes, reorders or edits a message, or touches a
    reaction of another user. *)
Theorem serve_appends_messages (req : Request) (w : World) :
  others_only <$> messages (db w)
  `prefix_of` others_only <$> messages (db (serve req w).2).
Proof.
  rewrite serve_world.
  destruct req as [|room_id limit|message_data|reaction_data|room_id];
    try done.
  - rewrite send_message_eval. simpl. rewrite fmap_app.
    by apply prefix_app_r.
  - destruct (add_reaction_world reaction_data w)
      as [(before & message & after & Heq & ->)| ->]; [|done].
    simpl. rewrite Heq, !fmap_app, !fmap_cons.
    by rewrite others_only_reacted.
Qed.

(** ** More on sending *)

(** X9: A send is always answered with a message of [current_user], named
    "You", without reactions and not a system message, carrying the given
    room id and content.  As the store keeps it, it becomes the last stored
    message; the messages stored before stay as they are, the users are
    untouched, and a room is afterwards as before or, if it has the given
    id, as before up to its last activity: in particular no unread count
    moves. *)
Theorem send_message_frame (message_data : MessageCreate.t) (w : World) :
  ∃ m,
    (send_message message_data w).1 = Return m ∧
    Message.room_id m = MessageCreate.room_id message_data ∧
    Message.content m = MessageCreate.content message_data ∧
    Message.sender_id m = current_user ∧
    Message.sender_name m = "You" ∧
    Message.reactions m = [] ∧
    Message.is_system m = false ∧
    messages (db (send_message message_data w).2)
    = messages (db w) ++ [Message.stored m] ∧
    users (db (send_message message_data w).2) = users (db w) ∧
    Forall2
      (λ r r', r' = r ∨
               (Room.id r = MessageCreate.room_id message_data ∧
                ∃ t, r' = Room.set_last_activity t r))
      (rooms (db w)) (rooms (db (send_message message_data w).2)).
Proof.
  rewrite send_message_eval. simpl. eexists. repeat split.
  apply Forall2_update_one; intros; [by left | right; eauto].
Qed.

(** ** More on reacting *)

(** X10: Reacting again overwrites: two reactions to a stored message, one after
    the other, leave the answer and the world that the second one alone
    would have left.  With the same emoji twice, the second call changes
    nothing. *)
Theorem add_reaction_overwrites (message_id first second : string)
    (w : World) (message : Message.t) :
  Mongo.find_one (message_has_id message_id) (messages (db w))
  = Some message →
  add_reaction (ReactionCreate.mk message_id second)
    (add_reaction (ReactionCreate.mk message_id first) w).2
  = add_reaction (ReactionCreate.mk message_id second) w.
Proof.
  intros Hfind.
  pose proof (add_reaction_then_find (ReactionCreate.mk message_id first)
                w message Hfind) as Hthen.
  rewrite (add_reaction_hit (ReactionCreate.mk message_id second) _ _ Hthen).
  rewrite (add_reaction_hit (ReactionCreate.mk message_id first) _ _ Hfind).
  rewrite (add_reaction_hit (ReactionCreate.mk message_id second) _ _ Hfind).
  simpl. unfold with_db. simpl.
  apply find_one_Some in Hfind as (before & after & Heq & Hbefore & Hid).
  rewrite Heq, !update_one_at by done.
  unfold reacted at 1. simpl. rewrite filter_not_by_reacted.
  reflexivity.
Qed.

Lemma add_reaction_overwrites_witness :
  add_reaction (ReactionCreate.mk "msg1" "🎉")
    (add_reaction (ReactionCreate.mk "msg1" "🔥") seeded_world).2
  = add_reaction (ReactionCreate.mk "msg1" "🎉") seeded_world.
Proof.
  apply (add_reaction_overwrites "msg1" "🔥" "🎉" seeded_world
           (Message.mk "msg1" "room1" "user1" "Alice Johnson"
              "Hey everyone! How's the project coming along?" 1006000
              [Reaction.mk "👍" "user2" "Bob Smith"] false)).
  reflexivity.
Defined.

(** ** More on listing messages *)

(** X11: For a positive limit below 2^63, a page holds stored messages of
    the asked room only. *)
Theorem get_messages_only_room (room_id : string) (limit : Z) (w : World) :
  (0 < limit < 2 ^ 63)%Z →
  ∃ page,
    get_messages room_id limit w = (Return page, w) ∧
    Forall (λ m, Message.room_id m = room_id ∧ m ∈ messages (db w)) page.
Proof.
  intros Hpos. rewrite get_messages_positive by done.
  eexists. split; [reflexivity|].
  apply Forall_forall. intros m Hm. rewrite elem_of_reverse in Hm.
  apply (λ H, elem_of_sublist _ _ _ H (sublist_take _ _)) in Hm.
  rewrite sort_timestamp_desc_perm in Hm.
  by apply list_elem_of_filter in Hm.
Qed.

Lemma get_messages_only_room_witness :
  ∃ page,
    get_messages "room1" 2 seeded_world = (Return page, seeded_world) ∧
    Forall (λ m, Message.room_id m = "room1" ∧
                 m ∈ messages (db seeded_world)) page.
Proof. apply (get_messages_only_room "room1" 2 seeded_world). lia. Defined.

(** X12: Asking, with a positive limit below 2^63, for the messages of a
    room that has none, such as a room the store does not know, is no
    error: the page is empty. *)
Theorem get_messages_empty_room (room_id : string) (limit : Z) (w : World) :
  (0 < limit < 2 ^ 63)%Z →
  Forall (λ m, Message.room_id m ≠ room_id) (messages (db w)) →
  get_messages room_id limit w = (Return [], w).
Proof.
  intros Hpos Hnone. rewrite get_messages_positive by done.
  replace (Mongo.find (message_in_room room_id) (messages (db w)))
    with (@nil Message.t); [by destruct (Z.to_nat limit)|].
  symmetry. unfold Mongo.find.
  induction Hnone as [|m ms Hm _ IH]; [done|].
  by rewrite filter_cons_False.
Qed.

Lemma get_messages_empty_room_witness :
  get_messages "room3" 50 seeded_world = (Return [], seeded_world).
Proof.
  apply (get_messages_empty_room "room3" 50 seeded_world); [lia|].
  vm_compute. repeat constructor; discriminate.
Defined.

Lemma newest_sorts_first (old : list Message.t) (m : Message.t) :
  Forall (λ o, (Message.timestamp o < Message.timestamp m)%Z) old →
  ∃ rest, sort_timestamp_desc (old ++ [m]) = m :: rest.
Proof.
  intros Hold.
  pose proof (sort_timestamp_desc_sorted (old ++ [m])) as Hsorted.
  pose proof (sort_timestamp_desc_perm (old ++ [m])) as Hperm.
  destruct (sort_timestamp_desc (old ++ [m])) as [|x rest].
  { apply Permutation_nil_l in Hperm. by destruct old. }
  exists rest. f_equal.
  assert (Hx : x ∈ old ++ [m]) by (rewrite <- Hperm; by left).
  assert (Hm : m ∈ x :: rest) by (rewrite Hperm, elem_of_app; right; by left).
  apply elem_of_app in Hx as [Hx|Hx]; [|by apply list_elem_of_singleton].
  rewrite Forall_forall in Hold. specialize (Hold x Hx).
  apply elem_of_cons in Hm as [->|Hm]; [lia|].
  apply StronglySorted_cons in Hsorted as [Hall _].
  rewrite Forall_forall in Hall. specialize (Hall m Hm).
  unfold newer_first in Hall. lia.
Qed.

(** X13: A message just sent closes the listing of its room: when the
    milliseconds of the clock reading it is stamped with are after the
    stored timestamp of every stored message of the room, the page asked
    for next, with a positive limit below 2^63, ends with the new message
    as the store keeps it. *)
Theorem send_message_listed_last (message_data : MessageCreate.t)
    (limit : Z) (w : World) :
  (0 < limit < 2 ^ 63)%Z →
  Forall (λ o, Message.room_id o = MessageCreate.room_id message_data →
               (Message.timestamp o < millis (clock w (clock_reads w)))%Z)
    (messages (db w)) →
  ∃ m page,
    (send_message message_data w).1 = Return m ∧
    (get_messages (MessageCreate.room_id message_data) limit
       (send_message message_data w).2).1 = Return page ∧
    last page = Some (Message.stored m).
Proof.
  intros Hpos Hold. rewrite get_messages_positive by done.
  rewrite send_message_eval. simpl. eexists _, _.
  split; [reflexivity|]. split; [reflexivity|].
  unfold Mongo.find. rewrite filter_app, filter_cons_True by done.
  rewrite filter_nil.
  edestruct newest_sorts_first as [rest ->].
  - apply Forall_forall. intros o Ho.
    apply list_elem_of_filter in Ho as [Hroom Ho].
    rewrite Forall_forall in Hold. simpl. by apply Hold.
  - destruct (Z.to_nat limit) as [|n] eqn:Hn; [lia|].
    simpl. rewrite reverse_cons. apply last_snoc.
Qed.

Lemma send_message_listed_last_witness :
  ∃ m page,
    (send_message (MessageCreate.mk "room1" "hi") seeded_world).1
    = Return m ∧
    (get_messages "room1" 2
       (send_message (MessageCreate.mk "room1" "hi") seeded_world).2).1
    = Return page ∧
    last page = Some (Message.stored m).
Proof.
  apply (send_message_listed_last (MessageCreate.mk "room1" "hi") 2
           seeded_world); [lia|].
  by apply (bool_decide_unpack _); vm_compute.
Defined.

(** ** What holds in every reachable world *)

Lemma Forall_update_one_impl {A} (P : A → Prop) `{!∀ d, Decision (P d)}
    (Q Q' : A → Prop) (patch : A → A) (c : list A) :
  Forall Q c → (∀ d, Q d → Q' d) → (∀ d, Q d → Q' (patch d)) →
  Forall Q' (Mongo.update_one P patch c).
Proof.
  intros Hc Hkeep Hpatch. induction Hc as [|d c Hd Hc IH]; simpl.
  - constructor.
  - destruct (decide (P d)); constructor; auto.
    eapply Forall_impl; [exact Hc | exact Hkeep].
Qed.

(** A request leaves the clock and the id generator what they are and
    only moves their counters forward. *)
Lemma serve_env (req : Request) (w : World) :
  clock (serve req w).2 = clock w ∧
  uuids (serve req w).2 = uuids w ∧
  (clock_reads w ≤ clock_reads (serve req w).2)%nat ∧
  (uuid_draws w ≤ uuid_draws (serve req w).2)%nat.
Proof.
  rewrite serve_world.
  destruct req as [|room_id limit|message_data|reaction_data|room_id];
    try by repeat split.
  - rewrite send_message_eval. simpl. repeat split; lia.
  - by destruct (add_reaction_world reaction_data w)
      as [(before & message & after & _ & ->)| ->].
Qed.

(** The first startup, on the empty database. *)
Lemma startup_event_fresh (w : World) :
  db w = empty_db →
  clock (startup_event w).2 = clock w ∧
  uuids (startup_event w).2 = uuids w ∧
  uuid_draws (startup_event w).2 = uuid_draws w ∧
  clock_reads (startup_event w).2 = (10 + clock_reads w)%nat ∧
  Message.id <$> messages (db (startup_event w).2) = mock_message_ids ∧
  Room.id <$> rooms (db (startup_event w).2) = ["room1"; "room2"; "room3"] ∧
  (λ r, (Room.created_at r, Room.last_activity r))
    <$> rooms (db (startup_event w).2)
  = [ (millis (clock w (clock_reads w)),
       millis (clock w (1 + clock_reads w)));
      (millis (clock w (2 + clock_reads w)),
       millis (clock w (3 + clock_reads w)));
      (millis (clock w (4 + clock_reads w)),
       millis (clock w (5 + clock_reads w))) ].
Proof.
  intros Hempty. destruct w as [d c n u k]. simpl in Hempty. subst d.
  cbv -[millis]. by repeat split.
Qed.

Lemma reachable_rooms (w : World) :
  reachable w → Room.id <$> rooms (db w) = ["room1"; "room2"; "room3"].
Proof.
  induction 1 as [w0 Hempty|w req _ IH].
  - by apply startup_event_fresh.
  - by rewrite serve_rooms_fmap.
Qed.

(** X14: The rooms of a reachable world are the three mock rooms, in their
    order, so the bound of [get_rooms] never bites: the handler answers
    every stored room. *)
Theorem get_rooms_complete (w : World) :
  reachable w →
  Room.id <$> rooms (db w) = ["room1"; "room2"; "room3"] ∧
  get_rooms w = (Return (rooms (db w)), w).
Proof.
  intros Hreach. pose proof (reachable_rooms w Hreach) as Hids.
  split; [done|]. rewrite get_rooms_eval, take_ge; [done|].
  apply (f_equal length) in Hids. rewrite length_fmap in Hids.
  rewrite Hids. simpl. lia.
Qed.

Lemma get_rooms_complete_witness :
  Room.id <$> rooms (db seeded_world) = ["room1"; "room2"; "room3"] ∧
  get_rooms seeded_world = (Return (rooms (db seeded_world)), seeded_world).
Proof.
  apply (get_rooms_complete seeded_world).
  apply (reachable_startup blank_world). reflexivity.
Defined.

Lemma reachable_activity (w : World) :
  reachable w → clock_monotone w →
  Forall (λ r, (Room.created_at r ≤ Room.last_activity r)%Z ∧
               ∀ k, (clock_reads w ≤ k)%nat →
                    (Room.created_at r ≤ millis (clock w k))%Z)
    (rooms (db w)).
Proof.
  induction 1 as [w0 Hempty|w req _ IH]; intros Hclock.
  - destruct (startup_event_fresh w0 Hempty)
      as (Hc & _ & _ & Hreads & _ & _ & Hrooms).
    unfold clock_monotone in Hclock. rewrite Hc in Hclock.
    rewrite Hc, Hreads.
    apply (Forall_fmap
             (λ r, (Room.created_at r, Room.last_activity r))
             (λ p, (p.1 ≤ p.2)%Z ∧
                   ∀ k, (10 + clock_reads w0 ≤ k)%nat →
                        (p.1 ≤ millis (clock w0 k))%Z)).
    rewrite Hrooms. repeat constructor; simpl;
      try (intros k Hk); apply millis_mono, Hclock; lia.
  - destruct (serve_env req w) as (Hc & _ & Hreads & _).
    assert (Hbefore : clock_monotone w).
    { unfold clock_monotone in *. by rewrite Hc in Hclock. }
    specialize (IH Hbefore). clear Hreads. revert Hc.
    rewrite serve_world.
    destruct req as [|room_id limit|message_data|reaction_data|room_id];
      try (intros _; exact IH).
    + rewrite send_message_eval. simpl. intros _.
      eapply Forall_update_one_impl; [exact IH|..].
      * intros r [Hr Hlater]. split; [done|].
        intros k Hk. apply Hlater. lia.
      * intros r [Hr Hlater]. simpl. split; [apply Hlater; lia|].
        intros k Hk. apply Hlater. lia.
    + by destruct (add_reaction_world reaction_data w)
        as [(before & message & after & _ & ->)| ->].
    + rewrite mark_room_as_read_eval. simpl. intros _.
      eapply Forall_update_one_impl; [exact IH|..]; by intros r [Hr Hlater].
Qed.

(** X15: As long as the clock never steps back, no room of a reachable world
    has a last activity before its creation. *)
Theorem room_activity_after_creation (w : World) :
  reachable w → clock_monotone w → activity_after_creation (db w).
Proof.
  intros Hreach Hclock. unfold activity_after_creation.
  eapply Forall_impl; [by apply reachable_activity|].
  by intros r [Hr _].
Qed.

Lemma room_activity_after_creation_witness :
  activity_after_creation
    (db (serve (SendMessage (MessageCreate.mk "room2" "hi"))
           seeded_world).2).
Proof.
  apply (room_activity_after_creation
           (serve (SendMessage (MessageCreate.mk "room2" "hi"))
              seeded_world).2).
  - apply reachable_serve, (reachable_startup blank_world). reflexivity.
  - intros i j Hij.
    replace (clock (serve (SendMessage (MessageCreate.mk "room2" "hi"))
                      seeded_world).2)
      with (λ k : nat, (1000 * (1000 + Z.of_nat k) + 500)%Z) by reflexivity.
    lia.
Defined.

Lemma reachable_message_ids (w : World) :
  reachable w →
  ∃ ks,
    Message.id <$> messages (db w) = mock_message_ids ++ (uuids w <$> ks) ∧
    NoDup ks ∧ Forall (λ k, (k < uuid_draws w)%nat) ks.
Proof.
  induction 1 as [w0 Hempty|w req _ (ks & Hids & Hks & Hdrawn)].
  - destruct (startup_event_fresh w0 Hempty)
      as (_ & _ & _ & _ & Hids & _).
    exists []. rewrite Hids.
    split; [symmetry; apply app_nil_r|]. split; constructor.
  - rewrite serve_world.
    destruct req as [|room_id limit|message_data|reaction_data|room_id];
      try (by exists ks).
    + rewrite send_message_eval. simpl. exists (ks ++ [uuid_draws w]).
      rewrite !fmap_app, Hids, <- app_assoc. split; [done|]. split.
      * apply NoDup_app. split; [done|]. split; [|apply NoDup_singleton].
        intros k Hk ->%list_elem_of_singleton.
        rewrite Forall_forall in Hdrawn. specialize (Hdrawn _ Hk). lia.
      * apply Forall_app. split; [|by repeat constructor].
        eapply Forall_impl; [exact Hdrawn|]. simpl. lia.
    + destruct (add_reaction_world reaction_data w)
        as [(before & message & after & Heq & ->)| ->]; [|by exists ks].
      exists ks. split; [|done].
      rewrite Heq, fmap_app, fmap_cons in Hids.
      simpl. rewrite fmap_app, fmap_cons. exact Hids.
Qed.

(** X16: As long as [uuid4] has not repeated itself and has not answered the id
    of a mock message, the stored messages of a reachable world have ids
    that are pairwise different: an id names one message. *)
Theorem message_ids_unique (w : World) :
  reachable w →
  (∀ i j, (i < uuid_draws w)%nat → (j < uuid_draws w)%nat →
          uuids w i = uuids w j → i = j) →
  (∀ k, (k < uuid_draws w)%nat → uuids w k ∉ mock_message_ids) →
  NoDup (Message.id <$> messages (db w)).
Proof.
  intros Hreach Hinj Hfresh.
  destruct (reachable_message_ids w Hreach) as (ks & -> & Hks & Hdrawn).
  rewrite Forall_forall in Hdrawn.
  apply NoDup_app. split; [|split].
  - by apply (bool_decide_unpack _); vm_compute.
  - intros i Hmock (k & -> & Hk)%list_elem_of_fmap.
    exact (Hfresh k (Hdrawn k Hk) Hmock).
  - apply NoDup_fmap_2_strong; [|done].
    intros i j Hi Hj. apply Hinj; by apply Hdrawn.
Qed.

Lemma message_ids_unique_witness :
  NoDup
    (Message.id <$>
       messages
         (db (serve (SendMessage (MessageCreate.mk "room2" "hi"))
                seeded_world).2)).
Proof.
  apply (message_ids_unique
           (serve (SendMessage (MessageCreate.mk "room2" "hi"))
              seeded_world).2).
  - apply reachable_serve, (reachable_startup blank_world). reflexivity.
  - change (uuid_draws (serve (SendMessage (MessageCreate.mk "room2" "hi"))
                          seeded_world).2) with 1%nat.
    intros i j Hi Hj _. lia.
  - change (uuid_draws (serve (SendMessage (MessageCreate.mk "room2" "hi"))
                          seeded_world).2) with 1%nat.
    intros k Hk. replace k with 0%nat by lia.
    by apply (bool_decide_unpack _); vm_compute.
Defined.

(** ** Requests that do not get in each other's way *)

Lemma update_one_comm {A} (P Q : A → Prop) `{!∀ d, Decision (P d)}
    `{!∀ d, Decision (Q d)} (f g : A → A) (c : list A) :
  (∀ d, P (g d) ↔ P d) → (∀ d, Q (f d) ↔ Q d) →
  (∀ d, P d → Q d → f (g d) = g (f d)) →
  Mongo.update_one P f (Mongo.update_one Q g c)
  = Mongo.update_one Q g (Mongo.update_one P f c).
Proof.
  intros HP HQ Hcomm. induction c as [|d c IH]; [done|]. simpl.
  destruct (decide (P d)) as [Hp|Hp], (decide (Q d)) as [Hq|Hq]; simpl.
  - destruct (decide (P (g d))) as [_|Hn]; [|by destruct Hn; apply HP].
    destruct (decide (Q (f d))) as [_|Hn]; [|by destruct Hn; apply HQ].
    by rewrite Hcomm.
  - destruct (decide (P d)); [|done].
    destruct (decide (Q (f d))) as [Hn|_]; [destruct Hq; by apply HQ|done].
  - destruct (decide (Q d)); [|done].
    destruct (decide (P (g d))) as [Hn|_]; [destruct Hp; by apply HP|done].
  - destruct (decide (P d)); [done|]. destruct (decide (Q d)); [done|].
    by rewrite IH.
Qed.

Lemma find_one_update_other {A} (P Q : A → Prop) `{!∀ d, Decision (P d)}
    `{!∀ d, Decision (Q d)} (f : A → A) (c : list A) :
  (∀ d, P d → ¬ Q d) → (∀ d, Q (f d) ↔ Q d) →
  Mongo.find_one Q (Mongo.update_one P f c) = Mongo.find_one Q c.
Proof.
  intros Hother HQ. unfold Mongo.find_one. f_equal.
  induction c as [|d c IH]; [done|]. simpl.
  destruct (decide (P d)) as [Hp|Hp].
  - rewrite !filter_cons_False; [done|by apply Hother|].
    rewrite HQ. by apply Hother.
  - rewrite !(filter_cons Q). by rewrite IH.
Qed.

(** X17: Marking a room as read and sending a message can be done in either
    order, to the same room or to different ones: the send is answered
    with the same message and the worlds left are the same. *)
Theorem mark_read_send_commute (room_id : string)
    (message_data : MessageCreate.t) (w : World) :
  send_message message_data (mark_room_as_read room_id w).2
  = ((send_message message_data w).1,
     (mark_room_as_read room_id (send_message message_data w).2).2).
Proof.
  rewrite !send_message_eval, !mark_room_as_read_eval. simpl.
  unfold with_db. simpl. do 3 f_equal.
  by apply update_one_comm.
Qed.

(** X18: Reactions to two different messages can be given in either order: the
    second call is answered the same and the worlds left are the same,
    whether or not the messages exist. *)
Theorem add_reaction_commute (first second : ReactionCreate.t) (w : World) :
  ReactionCreate.message_id first ≠ ReactionCreate.message_id second →
  add_reaction second (add_reaction first w).2
  = ((add_reaction second w).1,
     (add_reaction first (add_reaction second w).2).2).
Proof.
  intros Hdiff.
  assert (Hother : ∀ i j (rs : list Reaction.t) (c : list Message.t),
            i ≠ j →
            Mongo.find_one (message_has_id j)
              (Mongo.update_one (message_has_id i)
                 (Message.set_reactions rs) c)
            = Mongo.find_one (message_has_id j) c).
  { intros i j rs c Hij. apply find_one_update_other; [|done].
    unfold message_has_id. intros d -> Hd. by apply Hij. }
  destruct (Mongo.find_one
              (message_has_id (ReactionCreate.message_id first))
              (messages (db w))) as [m1|] eqn:H1;
    destruct (Mongo.find_one
                (message_has_id (ReactionCreate.message_id second))
                (messages (db w))) as [m2|] eqn:H2.
  - rewrite (add_reaction_hit first w m1 H1).
    rewrite (add_reaction_hit second w m2 H2).
    rewrite (add_reaction_hit second _ m2);
      [|simpl; by rewrite Hother].
    rewrite (add_reaction_hit first _ m1);
      [|simpl; by rewrite Hother].
    simpl. unfold with_db. simpl. do 3 f_equal.
    apply update_one_comm; try done.
    unfold message_has_id. intros d Hd1 Hd2. destruct Hdiff. congruence.
  - rewrite (add_reaction_hit first w m1 H1).
    rewrite (add_reaction_miss second w H2).
    rewrite (add_reaction_miss second _);
      [|simpl; by rewrite Hother].
    simpl. by rewrite (add_reaction_hit first w m1 H1).
  - rewrite (add_reaction_miss first w H1). simpl.
    rewrite (add_reaction_hit second w m2 H2). simpl.
    by rewrite (add_reaction_miss first _) by (simpl; by rewrite Hother).
  - rewrite (add_reaction_miss first w H1). simpl.
    rewrite (add_reaction_miss second w H2). simpl.
    by rewrite (add_reaction_miss first w H1).
Qed.

Lemma add_reaction_commute_witness :
  add_reaction (ReactionCreate.mk "msg2" "🎉")
    (add_reaction (ReactionCreate.mk "msg1" "🔥") seeded_world).2
  = ((add_reaction (ReactionCreate.mk "msg2" "🎉") seeded_world).1,
     (add_reaction (ReactionCreate.mk "msg1" "🔥")
        (add_reaction (ReactionCreate.mk "msg2" "🎉") seeded_world).2).2).
Proof.
  apply (add_reaction_commute (ReactionCreate.mk "msg1" "🔥")
           (ReactionCreate.mk "msg2" "🎉") seeded_world).
  discriminate.
Defined.

(** ** The log is chronological *)

Lemma startup_event_fresh_stamps (w : World) :
  db w = empty_db →
  Message.timestamp <$> messages (db (startup_event w).2)
  = [ millis (clock w (6 + clock_reads w));
      millis (clock w (7 + clock_reads w));
      millis (clock w (8 + clock_reads w));
      millis (clock w (9 + clock_reads w)) ].
Proof.
  intros Hempty. destruct w as [d c n u k]. simpl in Hempty. subst d.
  cbv -[millis]. reflexivity.
Qed.

Lemma older_first_of_stamps (ms : list Message.t) :
  StronglySorted Z.le (Message.timestamp <$> ms) →
  StronglySorted older_first ms.
Proof.
  induction ms as [|m ms IH]; [constructor|].
  rewrite fmap_cons. intros [Hall Hms]%StronglySorted_cons.
  constructor; [by apply IH|].
  rewrite Forall_fmap in Hall.
  eapply Forall_impl; [exact Hall|]. by intros o Ho.
Qed.

Lemma reachable_stamps (w : World) :
  reachable w → clock_monotone w →
  StronglySorted Z.le (Message.timestamp <$> messages (db w)) ∧
  Forall (λ t, ∀ k, (clock_reads w ≤ k)%nat → (t ≤ millis (clock w k))%Z)
    (Message.timestamp <$> messages (db w)).
Proof.
  induction 1 as [w0 Hempty|w req _ IH]; intros Hclock.
  - destruct (startup_event_fresh w0 Hempty) as (Hc & _ & _ & Hreads & _).
    unfold clock_monotone in Hclock. rewrite Hc in Hclock.
    rewrite Hc, Hreads, (startup_event_fresh_stamps w0 Hempty).
    split; repeat constructor; try (intros k Hk);
      apply millis_mono, Hclock; lia.
  - destruct (serve_env req w) as (Hc & _).
    assert (Hbefore : clock_monotone w).
    { unfold clock_monotone in *. by rewrite Hc in Hclock. }
    destruct (IH Hbefore) as [Hsorted Hpast]. clear Hc Hclock.
    rewrite serve_world.
    destruct req as [|room_id limit|message_data|reaction_data|room_id];
      try done.
    + rewrite send_message_eval. simpl. rewrite fmap_app. simpl. split.
      * apply StronglySorted_app_2; [|done|repeat constructor].
        intros t1 t2 Ht1 ->%list_elem_of_singleton.
        rewrite Forall_forall in Hpast. by apply Hpast.
      * apply Forall_app. split.
        -- eapply Forall_impl; [exact Hpast|]. simpl.
           intros t Ht k Hk. apply Ht. lia.
        -- repeat constructor. intros k Hk.
           apply millis_mono, Hbefore. lia.
    + destruct (add_reaction_world reaction_data w)
        as [(before & message & after & Heq & ->)| ->]; [|done].
      rewrite Heq, fmap_app, fmap_cons in Hsorted, Hpast.
      simpl. by rewrite fmap_app, fmap_cons.
Qed.

(** X19: As long as the clock never steps back, the messages of a reachable
    world are stored in the order of their timestamps: the order of
    arrival is the chronological one. *)
Theorem messages_chronological (w : World) :
  reachable w → clock_monotone w →
  StronglySorted older_first (messages (db w)).
Proof.
  intros Hreach Hclock. apply older_first_of_stamps.
  by apply reachable_stamps.
Qed.

Lemma messages_chronological_witness :
  StronglySorted older_first
    (messages
       (db (serve (SendMessage (MessageCreate.mk "room2" "hi"))
              seeded_world).2)).
Proof.
  apply (messages_chronological
           (serve (SendMessage (MessageCreate.mk "room2" "hi"))
              seeded_world).2).
  - apply reachable_serve, (reachable_startup blank_world). reflexivity.
  - intros i j Hij.
    replace (clock (serve (SendMessage (MessageCreate.mk "room2" "hi"))
                      seeded_world).2)
      with (λ k : nat, (1000 * (1000 + Z.of_nat k) + 500)%Z) by reflexivity.
    lia.
Defined.

(** ** The API tester *)

(** X20: Every call of [run_test] counts one more test run and at most one more
    test passed, and leaves the collected ids alone: the tester never
    counts more passes than runs. *)
Theorem run_test_counts (method : string) (expected_status : Z)
    (reply : option HttpResponse) (self : Tester.t) :
  Tester.tests_run (Tester.run_test method expected_status reply self).2
  = S (Tester.tests_run self) ∧
  (Tester.tests_passed (Tester.run_test method expected_status reply self).2
   = Tester.tests_passed self ∨
   Tester.tests_passed (Tester.run_test method expected_status reply self).2
   = S (Tester.tests_passed self)) ∧
  Tester.room_ids (Tester.run_test method expected_status reply self).2
  = Tester.room_ids self ∧
  Tester.message_ids (Tester.run_test method expected_status reply self).2
  = Tester.message_ids self.
Proof.
  unfold Tester.run_test.
  destruct (decide (method ∈ ["GET"; "POST"; "PUT"; "DELETE"]));
    [|by repeat split; try left].
  destruct reply as [response|]; [|by repeat split; try left].
  destruct (bool_decide (status_code response = expected_status));
    destruct (decide (text response = ""));
    try destruct (json response);
    simpl; repeat split; (by left) || (by right).
Qed.

(** X21: When [run_test] hands back [True], the method was one of the four, a
    reply came, its status was the expected one, the test was counted as
    passed, and the body handed back is the parsed reply, or [{}] for an
    empty one. *)
Theorem run_test_true (method : string) (expected_status : Z)
    (reply : option HttpResponse) (self : Tester.t) :
  (Tester.run_test method expected_status reply self).1.1 = true →
  method ∈ ["GET"; "POST"; "PUT"; "DELETE"] ∧
  ∃ response,
    reply = Some response ∧
    status_code response = expected_status ∧
    Tester.tests_passed (Tester.run_test method expected_status reply self).2
    = S (Tester.tests_passed self) ∧
    ((text response = "" ∧
      (Tester.run_test method expected_status reply self).1.2 = JDict []) ∨
     (text response ≠ "" ∧
      json response
      = Some (Tester.run_test method expected_status reply self).1.2)).
Proof.
  unfold Tester.run_test.
  destruct (decide (method ∈ ["GET"; "POST"; "PUT"; "DELETE"]));
    [|discriminate].
  destruct reply as [response|]; [|discriminate].
  destruct (bool_decide (status_code response = expected_status)) eqn:Hok.
  - apply bool_decide_eq_true in Hok.
    destruct (decide (text response = "")) as [Hempty|Hfull]; simpl.
    + intros _. split; [done|]. exists response. repeat split; auto.
    + destruct (json response) as [body|] eqn:Hbody; simpl; [|discriminate].
      intros _. split; [done|]. exists response. repeat split; auto.
  - destruct (decide (text response = "")); [discriminate|].
    destruct (json response); discriminate.
Qed.

Lemma run_test_true_witness :
  "GET" ∈ ["GET"; "POST"; "PUT"; "DELETE"] ∧
  ∃ response,
    Some rooms_reply = Some response ∧
    status_code response = 200%Z ∧
    Tester.tests_passed
      (Tester.run_test "GET" 200 (Some rooms_reply) fresh_tester).2
    = S (Tester.tests_passed fresh_tester) ∧
    ((text response = "" ∧
      (Tester.run_test "GET" 200 (Some rooms_reply) fresh_tester).1.2
      = JDict []) ∨
     (text response ≠ "" ∧
      json response
      = Some (Tester.run_test "GET" 200 (Some rooms_reply)
                fresh_tester).1.2)).
Proof.
  apply (run_test_true "GET" 200 (Some rooms_reply) fresh_tester).
  reflexivity.
Defined.

(** X22: The flag and the tally can disagree: a reply with the expected status
    whose body is not empty and does not parse is first counted as passed,
    and then [run_test] hands back [(False, {})]. *)
Theorem run_test_unparsed_body (method : string) (expected_status : Z)
    (response : HttpResponse) (self : Tester.t) :
  method ∈ ["GET"; "POST"; "PUT"; "DELETE"] →
  status_code response = expected_status →
  text response ≠ "" →
  json response = None →
  (Tester.run_test method expected_status (Some response) self).1
  = (false, JDict []) ∧
  Tester.tests_passed
    (Tester.run_test method expected_status (Some response) self).2
  = S (Tester.tests_passed self).
Proof.
  intros Hmethod Hstatus Htext Hjson. unfold Tester.run_test.
  destruct (decide (method ∈ ["GET"; "POST"; "PUT"; "DELETE"])); [|done].
  rewrite bool_decide_eq_true_2 by done.
  destruct (decide (text response = "")); [done|].
  by rewrite Hjson.
Qed.

Lemma run_test_unparsed_body_witness :
  (Tester.run_test "GET" 200 (Some html_reply) fresh_tester).1
  = (false, JDict []) ∧
  Tester.tests_passed
    (Tester.run_test "GET" 200 (Some html_reply) fresh_tester).2
  = S (Tester.tests_passed fresh_tester).
Proof.
  apply (run_test_unparsed_body "GET" 200 html_reply fresh_tester).
  - by apply (bool_decide_unpack _); vm_compute.
  - reflexivity.
  - discriminate.
  - reflexivity.
Defined.
